(** * dm-data-pattern-scrambler: the Pattern Scrambler of [src/main.py]

    A shallow embedding of [DataPatternScrambler] (its pattern table,
    [scramble_text], [replace_pattern], [generate_fake_value]) together with
    the part of Python's [re] engine that [re.sub] exercises on the four
    built-in patterns, and the properties the specification states of them.

    Text is a [string]; its characters are read as the code points 0..255.
    On that range [\d] is exactly [0-9] and [\s] is the set given by
    [is_space] below. *)

From Stdlib Require Import String Ascii List Bool Arith Lia.
Import ListNotations.
Open Scope string_scope.

(* ================================================================= *)
(** ** Strings *)

Definition str_concat (l : list string) : string :=
  fold_right append "" l.

(* ================================================================= *)
(** ** The regular-expression engine ([re]) *)

Module Re.

(** Character categories and the items of a character set [[...]]. *)
Inductive category := CATEGORY_DIGIT | CATEGORY_SPACE.

Inductive set_item :=
| SetLiteral (c : ascii)
| SetRange (lo hi : ascii)
| SetCategory (k : category).

Definition code (c : ascii) : nat := nat_of_ascii c.

Definition is_decimal (c : ascii) : bool :=
  ((48 <=? code c) && (code c <=? 57))%nat.

Definition is_space (c : ascii) : bool :=
  let n := code c in
  (((9 <=? n) && (n <=? 13)) || ((28 <=? n) && (n <=? 32))
   || (n =? 133) || (n =? 160))%nat.

Definition in_category (k : category) (c : ascii) : bool :=
  match k with
  | CATEGORY_DIGIT => is_decimal c
  | CATEGORY_SPACE => is_space c
  end.

Definition item_matches (i : set_item) (c : ascii) : bool :=
  match i with
  | SetLiteral a => Ascii.eqb a c
  | SetRange lo hi => ((code lo <=? code c) && (code c <=? code hi))%nat
  | SetCategory k => in_category k c
  end.

Definition in_charset (items : list set_item) (c : ascii) : bool :=
  existsb (fun i => item_matches i c) items.

(** Parsed patterns.  [Repeat greedy lo hi r] is [r{lo,hi}] ([hi = None]
    for an open upper bound), greedy or lazy; [Subpattern] is a group,
    capturing or not (no pattern here refers back to a group). *)
Inductive regex :=
| Empty
| Literal (c : ascii)
| In (items : list set_item)
| Seq (r1 r2 : regex)
| Branch (r1 r2 : regex)
| Repeat (greedy : bool) (lo : nat) (hi : option nat) (r : regex)
| Subpattern (capturing : bool) (r : regex).

(** The matcher backtracks; its choices at one position are listed in the
    order the engine tries them, each as (text consumed, text left). *)
Definition results := list (string * string).

Definition and_then (rs : results) (k : string -> results) : results :=
  flat_map (fun p => map (fun q => (fst p ++ fst q, snd q)) (k (snd p))) rs.

(** The [lo] iterations a repeat must make. *)
Fixpoint repeat_min (mb tail : string -> results) (n : nat) (s : string)
  : results :=
  match n with
  | 0 => tail s
  | S n' => and_then (mb s) (repeat_min mb tail n')
  end.

(** The iterations a repeat may make after those: a greedy repeat tries one
    more iteration before the rest of the pattern, a lazy one after it.  An
    iteration that consumes nothing is not repeated (the engine's guard
    against empty loops), so [length s] iterations are all there can be.
    This is the engine's order of choices for a repeat whose body matches
    no empty text, as every repeat of the table's patterns is; where a body
    can match the empty text the engine lets one empty iteration stand and
    may order the choices otherwise. *)
Fixpoint repeat_more (mb : string -> results) (greedy : bool)
  (extra : option nat) (fuel : nat) (s : string) : results :=
  match fuel with
  | 0 => [("", s)]
  | S fuel' =>
      let again :=
        match extra with
        | Some 0 => []
        | _ =>
            and_then
              (filter (fun p => (String.length (snd p) <? String.length s)%nat)
                 (mb s))
              (repeat_more mb greedy (option_map pred extra) fuel')
        end in
      if greedy then (again ++ [("", s)])%list else ("", s) :: again
  end.

Fixpoint matches_at (r : regex) (s : string) : results :=
  match r with
  | Empty => [("", s)]
  | Literal c =>
      match s with
      | String a s' => if Ascii.eqb c a then [(String a "", s')] else []
      | EmptyString => []
      end
  | In items =>
      match s with
      | String a s' => if in_charset items a then [(String a "", s')] else []
      | EmptyString => []
      end
  | Seq r1 r2 => and_then (matches_at r1 s) (matches_at r2)
  | Branch r1 r2 => (matches_at r1 s ++ matches_at r2 s)%list
  | Repeat greedy lo hi r =>
      repeat_min (matches_at r)
        (fun s' =>
           repeat_more (matches_at r) greedy
             (option_map (fun h => h - lo) hi) (String.length s') s')
        lo s
  | Subpattern _ r => matches_at r s
  end.

(** The match the engine reports at a position: its first choice, or, when
    the previous match was empty and ended here, its first non-empty one. *)
Definition first_match (r : regex) (must_advance : bool) (s : string)
  : option (string * string) :=
  find (fun p => negb (must_advance && (fst p =? ""))) (matches_at r s).

(** [search]: the leftmost position of [s] with a match, as
    (text skipped, text matched, text left). *)
Fixpoint search (r : regex) (must_advance : bool) (s : string)
  : option (string * string * string) :=
  match first_match r must_advance s with
  | Some (w, rest) => Some ("", w, rest)
  | None =>
      match s with
      | EmptyString => None
      | String a s' =>
          match search r false s' with
          | Some (skipped, w, rest) => Some (String a skipped, w, rest)
          | None => None
          end
      end
  end.

(** All matches of a scan, as [re.finditer] yields them: the text before
    each match with the match, and the text after the last one. *)
Fixpoint segments (fuel : nat) (r : regex) (must_advance : bool) (s : string)
  : list (string * string) * string :=
  match fuel with
  | 0 => ([], s)
  | S fuel' =>
      match search r must_advance s with
      | None => ([], s)
      | Some (skipped, w, rest) =>
          let (segs, tail) := segments fuel' r (w =? "") rest in
          ((skipped, w) :: segs, tail)
      end
  end.

Definition scan_fuel (s : string) : nat := 2 * String.length s + 2.

Definition finditer (r : regex) (s : string) : list (string * string) * string :=
  segments (scan_fuel s) r false s.

(** The words of a pattern: what it means for a text to match it as a
    whole, whatever the engine's order of choices.  (The parser refuses a
    repeat with [hi < lo]; the matcher above makes [lo] iterations of it.) *)
Fixpoint lang (r : regex) (w : string) : Prop :=
  match r with
  | Empty => w = ""
  | Literal c => w = String c ""
  | In items => exists a, in_charset items a = true /\ w = String a ""
  | Seq r1 r2 => exists w1 w2, w = w1 ++ w2 /\ lang r1 w1 /\ lang r2 w2
  | Branch r1 r2 => lang r1 w \/ lang r2 w
  | Repeat _ lo hi r =>
      exists ws, w = str_concat ws /\ lo <= List.length ws /\
                 (forall h, hi = Some h -> List.length ws <= Nat.max lo h) /\
                 Forall (lang r) ws
  | Subpattern _ r => lang r w
  end.

(** A text contains a match of a pattern. *)
Definition occurs (r : regex) (text : string) : Prop :=
  exists pre w post, text = pre ++ w ++ post /\ lang r w.

End Re.

(* ================================================================= *)
(** ** Writing patterns *)

Module Syntax.
Import Re.

Definition seq (rs : list regex) : regex := fold_right Seq Empty rs.

Fixpoint branch (r : regex) (rs : list regex) : regex :=
  match rs with
  | [] => r
  | r' :: rs' => Branch r (branch r' rs')
  end.

(** A run of literal characters. *)
Fixpoint str (s : string) : regex :=
  match s with
  | EmptyString => Empty
  | String c s' => Seq (Literal c) (str s')
  end.

Definition exactly (n : nat) (r : regex) := Repeat true n (Some n) r.
Definition at_least (n : nat) (r : regex) := Repeat true n None r.
Definition optional (r : regex) := Repeat true 0 (Some 1) r.
Definition lazy_optional (r : regex) := Repeat false 0 (Some 1) r.
Definition star (r : regex) := Repeat true 0 None r.
Definition plus (r : regex) := Repeat true 1 None r.
Definition group (r : regex) := Subpattern true r.
Definition non_capturing (r : regex) := Subpattern false r.

Definition digit := In [SetCategory CATEGORY_DIGIT].
Definition space := In [SetCategory CATEGORY_SPACE].
Definition range (lo hi : ascii) := In [SetRange lo hi].
Definition one_of (cs : list ascii) := In (map SetLiteral cs).

End Syntax.

(* ================================================================= *)
(** ** The pattern table of [DataPatternScrambler.__init__] *)

(** Each pattern is given parsed, under the text it has in the source; the
    four of them compile, so [re.sub] raises no [re.error] on them. *)
Module Patterns.
Import Re Syntax.

(** [[-\.\s]] *)
Definition separator : regex :=
  In [SetLiteral "-"; SetLiteral "."; SetCategory CATEGORY_SPACE].

(** [(\d{3}[-\.\s]??\d{3}[-\.\s]??\d{4}|\(\d{3}\)\s*\d{3}[-\.\s]??\d{4}|\d{3}[-\.\s]??\d{4})] *)
Definition phone_ten : regex :=
  seq [exactly 3 digit; lazy_optional separator; exactly 3 digit;
       lazy_optional separator; exactly 4 digit].

Definition phone_paren : regex :=
  seq [Literal "("; exactly 3 digit; Literal ")"; star space;
       exactly 3 digit; lazy_optional separator; exactly 4 digit].

Definition phone_seven : regex :=
  seq [exactly 3 digit; lazy_optional separator; exactly 4 digit].

Definition phone_number : regex :=
  group (branch phone_ten [phone_paren; phone_seven]).

(** [(?:4[0-9]{12}(?:[0-9]{3})?|5[1-5][0-9]{14}|6(?:011|5[0-9]{2})[0-9]{12}|3[47][0-9]{13}|3(?:0[0-5]|[68][0-9])[0-9]{11}|(?:2131|1800|35\d{3})\d{11})] *)
Definition credit_card : regex :=
  non_capturing
    (branch
       (seq [Literal "4"; exactly 12 (range "0" "9");
             optional (non_capturing (exactly 3 (range "0" "9")))])
       [seq [Literal "5"; range "1" "5"; exactly 14 (range "0" "9")];
        seq [Literal "6";
             non_capturing
               (branch (str "011") [seq [Literal "5"; exactly 2 (range "0" "9")]]);
             exactly 12 (range "0" "9")];
        seq [Literal "3"; one_of ["4"; "7"]%char; exactly 13 (range "0" "9")];
        seq [Literal "3";
             non_capturing
               (branch (seq [Literal "0"; range "0" "5"])
                  [seq [one_of ["6"; "8"]%char; range "0" "9"]]);
             exactly 11 (range "0" "9")];
        seq [non_capturing
               (branch (str "2131")
                  [str "1800"; seq [str "35"; exactly 3 digit]]);
             exactly 11 digit]]).

(** [[a-zA-Z0-9._%+-]+@[a-zA-Z0-9.-]+\.[a-zA-Z]{2,}] *)
Definition email : regex :=
  seq [plus (In [SetRange "a" "z"; SetRange "A" "Z"; SetRange "0" "9";
                 SetLiteral "."; SetLiteral "_"; SetLiteral "%";
                 SetLiteral "+"; SetLiteral "-"]);
       Literal "@";
       plus (In [SetRange "a" "z"; SetRange "A" "Z"; SetRange "0" "9";
                 SetLiteral "."; SetLiteral "-"]);
       Literal ".";
       at_least 2 (In [SetRange "a" "z"; SetRange "A" "Z"])].

(** [(25[0-5]|2[0-4][0-9]|[01]?[0-9][0-9]?)] *)
Definition octet : regex :=
  group
    (branch (seq [str "25"; range "0" "5"])
       [seq [Literal "2"; range "0" "4"; range "0" "9"];
        seq [optional (one_of ["0"; "1"]%char); range "0" "9";
             optional (range "0" "9")]]).

(** [((25[0-5]|2[0-4][0-9]|[01]?[0-9][0-9]?)\.){3}(25[0-5]|2[0-4][0-9]|[01]?[0-9][0-9]?)] *)
Definition ip_address : regex :=
  seq [exactly 3 (group (seq [octet; Literal "."])); octet].

End Patterns.

(* ================================================================= *)
(** ** The world of a call: the provider's state and the log *)

(** The exceptions of a call; all of them are instances of [Exception], so
    [except Exception] catches each and [except re.error] the first. *)
Inductive exn :=
| ReError (msg : string)      (* re.error *)
| KeyError (key : string)
| Exception (msg : string).   (* any other exception *)

Definition exn_str (e : exn) : string :=
  match e with
  | ReError msg => msg
  | KeyError key => "'" ++ key ++ "'"
  | Exception msg => msg
  end.

Inductive result (A : Type) :=
| Ok (a : A)
| Raise (e : exn).
Arguments Ok {A} a.
Arguments Raise {A} e.

Inductive level := WARNING | ERROR.

Record log_record := { levelname : level; message : string }.

(** The fake-data provider ([Faker(locale)]): each method draws from the
    provider's state [G] and returns a value or raises. *)
Record Faker (G : Type) := {
  phone_number : G -> result string * G;
  credit_card_number : G -> result string * G;
  email : G -> result string * G;
  ipv4 : G -> result string * G
}.
Arguments phone_number {G}.
Arguments credit_card_number {G}.
Arguments email {G}.
Arguments ipv4 {G}.

Record World (G : Type) := { rng : G; log : list log_record }.
Arguments rng {G}.
Arguments log {G}.

Definition M (G A : Type) : Type := World G -> result A * World G.

Definition ret {G A} (a : A) : M G A := fun w => (Ok a, w).

Definition raise {G A} (e : exn) : M G A := fun w => (Raise e, w).

Definition bind {G A B} (c : M G A) (k : A -> M G B) : M G B :=
  fun w =>
    match c w with
    | (Ok a, w') => k a w'
    | (Raise e, w') => (Raise e, w')
    end.

Definition try_except {G A} (c : M G A) (handler : exn -> M G A) : M G A :=
  fun w =>
    match c w with
    | (Ok a, w') => (Ok a, w')
    | (Raise e, w') => handler e w'
    end.

Definition logging {G} (lvl : level) (msg : string) : M G unit :=
  fun w =>
    (Ok tt, {| rng := rng w;
               log := (log w ++ [{| levelname := lvl; message := msg |}])%list |}).

Definition draw {G} (method : G -> result string * G) : M G string :=
  fun w =>
    let (v, g) := method (rng w) in (v, {| rng := g; log := log w |}).

Declare Scope monad_scope.
Delimit Scope monad_scope with monad.
Notation "x <- c ;; k" := (bind c (fun x => k))
  (at level 61, c at next level, right associativity) : monad_scope.
Notation "c ;; k" := (bind c (fun _ => k))
  (at level 61, right associativity) : monad_scope.
Open Scope monad_scope.

(* ================================================================= *)
(** ** [re.sub] with a function as replacement *)

Record Match := { group0 : string }.

Section Sub.
Context {G : Type}.

(** [re.sub(pattern, repl, text)] with a callable [repl], as of Python 3.7:
    search, copy the text skipped, call [repl] on the match, go on after
    it; an empty match makes the next search advance.  Every turn but the
    one after an empty match uses up text, so [Re.scan_fuel] turns are
    enough (see [ReFacts.segments_tail] and [ReFacts.segments_fuel]). *)
Fixpoint sub_loop (fuel : nat) (r : Re.regex) (repl : Match -> M G string)
  (must_advance : bool) (s : string) : M G string :=
  match fuel with
  | 0 => ret s
  | S fuel' =>
      match Re.search r must_advance s with
      | None => ret s
      | Some (skipped, w, rest) =>
          item <- repl {| group0 := w |} ;;
          out <- sub_loop fuel' r repl (w =? "") rest ;;
          ret (skipped ++ item ++ out)
      end
  end.

Definition re_sub (r : Re.regex) (repl : Match -> M G string) (text : string)
  : M G string :=
  sub_loop (Re.scan_fuel text) r repl false text.

End Sub.

(* ================================================================= *)
(** ** [DataPatternScrambler] *)

(** A [dict] with string keys, in insertion order. *)
Definition dict (V : Type) := list (string * V).

Fixpoint dict_get {V} (d : dict V) (key : string) : option V :=
  match d with
  | [] => None
  | (k, v) :: d' => if k =? key then Some v else dict_get d' key
  end.

Definition dict_contains {V} (d : dict V) (key : string) : bool :=
  match dict_get d key with Some _ => true | None => false end.

Definition dict_keys {V} (d : dict V) : list string := map fst d.

(** [self.patterns] *)
Definition patterns : dict Re.regex :=
  [("phone_number", Patterns.phone_number);
   ("credit_card", Patterns.credit_card);
   ("email", Patterns.email);
   ("ip_address", Patterns.ip_address)].

Section Scrambler.
Context {G : Type}.
Variable fake : Faker G.

Definition generate_fake_value (pattern_name : string) (mt : Match)
  : M G string :=
  try_except
    (if pattern_name =? "phone_number" then draw (phone_number fake)
     else if pattern_name =? "credit_card" then draw (credit_card_number fake)
     else if pattern_name =? "email" then draw (email fake)
     else if pattern_name =? "ip_address" then draw (ipv4 fake)
     else
       logging WARNING ("No faker method for pattern: " ++ pattern_name) ;;
       ret (group0 mt))
    (fun e =>
       logging ERROR
         ("Error generating fake value for " ++ pattern_name ++ ": "
          ++ exn_str e) ;;
       ret (group0 mt)).

Definition replace_pattern (text : string) (pattern : Re.regex)
  (pattern_name : string) : M G string :=
  try_except
    (re_sub pattern (fun mt => generate_fake_value pattern_name mt) text)
    (fun e =>
       match e with
       | ReError _ =>
           logging ERROR ("Error in regular expression: " ++ exn_str e) ;;
           ret text
       | _ => raise e
       end).

(** The body of the [for] loop of [scramble_text], and the loop. *)
Definition scramble_step (pattern_name : string) (text : string) : M G string :=
  if negb (dict_contains patterns pattern_name) then
    logging WARNING ("Unknown pattern name: " ++ pattern_name ++ ". Skipping.") ;;
    ret text
  else
    match dict_get patterns pattern_name with
    | Some pattern => replace_pattern text pattern pattern_name
    | None => raise (KeyError pattern_name)
    end.

Fixpoint scramble_loop (pattern_names : list string) (text : string)
  : M G string :=
  match pattern_names with
  | [] => ret text
  | pattern_name :: rest =>
      text' <- scramble_step pattern_name text ;;
      scramble_loop rest text'
  end.

Definition scramble_text (text : string) (pattern_names : option (list string))
  : M G string :=
  let pattern_names :=
    match pattern_names with
    | None => dict_keys patterns
    | Some names => names
    end in
  scramble_loop pattern_names text.

End Scrambler.

(** Two providers to run the code on: one whose methods return fixed
    values and count the calls, one whose methods all raise. *)
Definition fixed_faker : Faker nat := {|
  phone_number := fun n => (Ok "(555)867-5309", S n);
  credit_card_number := fun n => (Ok "4000000000000002", S n);
  email := fun n => (Ok "user5551234@example.org", S n);
  ipv4 := fun n => (Ok "10.0.0.1", S n)
|}.

Definition failing_faker : Faker nat := {|
  phone_number := fun n => (Raise (Exception "no provider"), S n);
  credit_card_number := fun n => (Raise (Exception "no provider"), S n);
  email := fun n => (Raise (Exception "no provider"), S n);
  ipv4 := fun n => (Raise (Exception "no provider"), S n)
|}.


Definition world0 : World nat := {| rng := 0; log := [] |}.


(* ================================================================= *)
(** ** Definitions used to state the properties *)

(** The least length of a word of a pattern. *)
Fixpoint min_width (r : Re.regex) : nat :=
  match r with
  | Re.Empty => 0
  | Re.Literal _ => 1
  | Re.In _ => 1
  | Re.Seq r1 r2 => min_width r1 + min_width r2
  | Re.Branch r1 r2 => Nat.min (min_width r1) (min_width r2)
  | Re.Repeat _ lo _ r => lo * min_width r
  | Re.Subpattern _ r => min_width r
  end.

(** A text put together from its segments: the text before each match,
    what stands at the match, and the text after the last match. *)
Fixpoint weave (segs : list (string * string)) (tail : string) : string :=
  match segs with
  | [] => tail
  | (gap, x) :: segs' => gap ++ x ++ weave segs' tail
  end.

Definition all_digits (s : string) : Prop :=
  Forall (fun c => Re.is_decimal c = true) (list_ascii_of_string s).

(** The effective category order of a request. *)
Definition effective (pattern_names : option (list string)) : list string :=
  match pattern_names with
  | None => dict_keys patterns
  | Some names => names
  end.

(** Decimal numerals and the octets of a dotted quad. *)
Definition digit_value (c : ascii) : nat := Re.code c - 48.

Definition decimal_value (s : string) : nat :=
  fold_left (fun acc c => 10 * acc + digit_value c) (list_ascii_of_string s) 0.

Definition is_octet (o : string) : Prop :=
  all_digits o /\ 1 <= String.length o <= 3 /\ decimal_value o <= 255.

Definition dotted_quad (w : string) : Prop :=
  exists o1 o2 o3 o4,
    w = o1 ++ "." ++ o2 ++ "." ++ o3 ++ "." ++ o4 /\
    is_octet o1 /\ is_octet o2 /\ is_octet o3 /\ is_octet o4.

(** No non-empty word of the pattern lies within the text. *)
Definition free_of (r : Re.regex) (text : string) : Prop :=
  forall pre u post, text = pre ++ u ++ post -> Re.lang r u -> u = "".

(** [repl] called on each match in turn, the results put in place. *)
Fixpoint fill {G} (repl : Match -> M G string) (segs : list (string * string))
  (tail : string) : M G string :=
  match segs with
  | [] => ret tail
  | (gap, x) :: segs' =>
      item <- repl {| group0 := x |} ;;
      out <- fill repl segs' tail ;;
      ret (gap ++ item ++ out)
  end.

(** The dispatch table of the specification: category to provider method. *)
Definition method_of {G} (fake : Faker G) (category : string)
  : option (G -> result string * G) :=
  if category =? "phone_number" then Some (phone_number fake)
  else if category =? "credit_card" then Some (credit_card_number fake)
  else if category =? "email" then Some (email fake)
  else if category =? "ip_address" then Some (ipv4 fake)
  else None.

(** The generator failure policy in the specification's words: the
    provider's value, or on an error the match itself and a logged error. *)
Definition generate_or_keep {G} (method : G -> result string * G)
  (category original : string) (w : World G) : string * World G :=
  match method (rng w) with
  | (Ok v, g) => (v, {| rng := g; log := log w |})
  | (Raise e, g) =>
      (original,
       {| rng := g;
          log := (log w ++
                  [{| levelname := ERROR;
                      message := "Error generating fake value for " ++ category
                                 ++ ": " ++ exn_str e |}])%list |})
  end.

(** One category pass in the specification's words: each match, left to
    right, gives way to [generate_or_keep]; the rest of the text stays. *)
Fixpoint substitute {G} (method : G -> result string * G) (category : string)
  (segs : list (string * string)) (tail : string) (w : World G)
  : string * World G :=
  match segs with
  | [] => (tail, w)
  | (gap, x) :: segs' =>
      let (item, w1) := generate_or_keep method category x w in
      let (out, w2) := substitute method category segs' tail w1 in
      (gap ++ item ++ out, w2)
  end.

Definition unknown_warning (name : string) : log_record :=
  {| levelname := WARNING;
     message := "Unknown pattern name: " ++ name ++ ". Skipping." |}.

(** A computation that only appends to the log and never reads it. *)
Definition log_transparent {G A} (c : M G A) : Prop :=
  forall g l,
    c {| rng := g; log := l |} =
    (fst (c {| rng := g; log := [] |}),
     {| rng := rng (snd (c {| rng := g; log := [] |}));
        log := (l ++ log (snd (c {| rng := g; log := [] |})))%list |}).

(* ================================================================= *)
(** ** Counting characters in the words of a pattern *)

Module Count.
Import Re.

(** The characters of a text that satisfy [P]. *)
Fixpoint count_chars (P : ascii -> bool) (s : string) : nat :=
  match s with
  | EmptyString => 0
  | String c s' => (if P c then 1 else 0) + count_chars P s'
  end.

Definition all_ascii : list ascii := map ascii_of_nat (seq 0 256).

(** Every character of the set satisfies [P]; none does. *)
Definition charset_all (items : list set_item) (P : ascii -> bool) : bool :=
  forallb (fun c => implb (in_charset items c) (P c)) all_ascii.

Definition charset_none (items : list set_item) (P : ascii -> bool) : bool :=
  forallb (fun c => implb (in_charset items c) (negb (P c))) all_ascii.

(** Bounds on the number of characters satisfying [P] in a word of [r]:
    at least [min_count], at most [max_count] where there is a bound. *)
Fixpoint min_count (P : ascii -> bool) (r : regex) : nat :=
  match r with
  | Empty => 0
  | Literal c => if P c then 1 else 0
  | In items => if charset_all items P then 1 else 0
  | Seq r1 r2 => min_count P r1 + min_count P r2
  | Branch r1 r2 => Nat.min (min_count P r1) (min_count P r2)
  | Repeat _ lo _ r => lo * min_count P r
  | Subpattern _ r => min_count P r
  end.

Fixpoint max_count (P : ascii -> bool) (r : regex) : option nat :=
  match r with
  | Empty => Some 0
  | Literal c => Some (if P c then 1 else 0)
  | In items => Some (if charset_none items P then 0 else 1)
  | Seq r1 r2 =>
      match max_count P r1, max_count P r2 with
      | Some m1, Some m2 => Some (m1 + m2)
      | _, _ => None
      end
  | Branch r1 r2 =>
      match max_count P r1, max_count P r2 with
      | Some m1, Some m2 => Some (Nat.max m1 m2)
      | _, _ => None
      end
  | Repeat _ lo hi r =>
      match max_count P r with
      | Some 0 => Some 0
      | Some m =>
          match hi with
          | Some h => Some (Nat.max lo h * m)
          | None => None
          end
      | None => None
      end
  | Subpattern _ r => max_count P r
  end.

Definition any_char (c : ascii) : bool := true.
Definition not_decimal (c : ascii) : bool := negb (is_decimal c).
Definition is_at (c : ascii) : bool := Ascii.eqb c "@".

(** What a phone number is written with besides digits. *)
Definition phone_punctuation (c : ascii) : bool :=
  is_space c || Ascii.eqb c "-" || Ascii.eqb c "." || Ascii.eqb c "("
  || Ascii.eqb c ")".

Definition not_phone_char (c : ascii) : bool :=
  negb (is_decimal c || phone_punctuation c).

(** What an e-mail address is written with. *)
Definition is_letter (c : ascii) : bool :=
  (((97 <=? code c) && (code c <=? 122))
   || ((65 <=? code c) && (code c <=? 90)))%nat.

Definition email_char (c : ascii) : bool :=
  is_letter c || is_decimal c || Ascii.eqb c "." || Ascii.eqb c "_"
  || Ascii.eqb c "%" || Ascii.eqb c "+" || Ascii.eqb c "-" || Ascii.eqb c "@".

Definition not_email_char (c : ascii) : bool := negb (email_char c).

(** A character every match of a category holds: [@] for an e-mail
    address, a digit for the others. *)
Definition telltale (category : string) : ascii -> bool :=
  if category =? "email" then is_at else is_decimal.

End Count.

(** The error record of a failed generation. *)
Definition generation_error (category : string) (e : exn) : log_record :=
  {| levelname := ERROR;
     message := "Error generating fake value for " ++ category ++ ": "
                ++ exn_str e |}.

Definition no_method_warning (name : string) : log_record :=
  {| levelname := WARNING;
     message := "No faker method for pattern: " ++ name |}.

(** The unknown names of a request, in order. *)
Definition unknown_names (names : list string) : list string :=
  filter (fun name => negb (dict_contains patterns name)) names.

(** The records a request can add to the log: a warning for an unknown
    name, an error for a failed generation in a valid category. *)
Definition request_record (names : list string) (rec : log_record) : Prop :=
  (exists name, List.In name names /\ dict_contains patterns name = false /\
                rec = unknown_warning name) \/
  (exists name e, List.In name names /\ dict_contains patterns name = true /\
                  rec = generation_error name e).

(* ================================================================= *)
(** ** The command line: [main] *)

Module Cli.

(** The exceptions [main] can meet, as its handlers tell them apart:
    [FileNotFoundError], the other instances of [IOError] (which is
    [OSError]), and the other instances of [Exception]. *)
Inductive io_exn :=
| FileNotFoundError (msg : string)
| IOError (msg : string)
| OtherError (msg : string).

Definition io_str (e : io_exn) : string :=
  match e with
  | FileNotFoundError msg => msg
  | IOError msg => msg
  | OtherError msg => msg
  end.

Inductive attempt (A : Type) :=
| Done (a : A)
| Failed (e : io_exn).
Arguments Done {A} a.
Arguments Failed {A} e.

(** What [parse_args] returns. *)
Record Namespace := {
  args_input_text : option string;
  args_patterns : option (list string);
  args_locale : string;
  args_file : option string;
  args_output : option string
}.

(** What [parse_args] does with the command line: it returns the
    Namespace, or prints the help on the standard output and exits with
    status 0, or reports a usage error (on the standard error, which is not
    kept here) and exits with status 2. *)
Inductive parse_result :=
| Parsed (args : Namespace)
| HelpShown (help : string)
| UsageError (msg : string).

(** What the program finds around it: what [parse_args] does, the outcome
    of reading a file at a path, of reading the standard input, of making a
    provider for a locale, of writing a text to a file at a path and of
    printing a text.  When writing fails, [left_behind] tells what the
    attempt leaves at the path: nothing new when the file could not be
    opened, else the file, emptied by [open(path, 'w')], with what was
    written of the text. *)
Record Env (G : Type) := {
  parse_args : parse_result;
  read_file : string -> attempt string;
  stdin_read : attempt string;
  new_provider : string -> attempt (Faker G * G);
  write_file : string -> string -> option io_exn;
  left_behind : string -> string -> option string;
  print_failure : string -> option io_exn
}.
Arguments parse_args {G}.
Arguments left_behind {G}.
Arguments read_file {G}.
Arguments stdin_read {G}.
Arguments new_provider {G}.
Arguments write_file {G}.
Arguments print_failure {G}.

(** A record of the process log: one of the scrambler's, or an INFO. *)
Inductive record :=
| Logged (r : log_record)
| LoggedInfo (msg : string).

Record Process := {
  records : list record;
  stdout : string;
  files : list (string * string)
}.

Definition start : Process := {| records := []; stdout := ""; files := [] |}.

(** [SystemExit] is no [Exception]: no handler of [main] catches it. *)
Inductive outcome (A : Type) :=
| Value (a : A)
| Raised (e : io_exn)
| SystemExit (code : nat).
Arguments Value {A} a.
Arguments Raised {A} e.
Arguments SystemExit {A} code.

Definition Cmd (A : Type) : Type := Process -> outcome A * Process.

Definition unit_cmd {A} (a : A) : Cmd A := fun p => (Value a, p).

Definition then_cmd {A B} (c : Cmd A) (k : A -> Cmd B) : Cmd B :=
  fun p =>
    match c p with
    | (Value a, p') => k a p'
    | (Raised e, p') => (Raised e, p')
    | (SystemExit code, p') => (SystemExit code, p')
    end.

(** [try: c except ...]: [handler e] is the clause that catches [e], if
    there is one. *)
Definition try_cmd {A} (c : Cmd A) (handler : io_exn -> option (Cmd A)) : Cmd A :=
  fun p =>
    match c p with
    | (Raised e, p') =>
        match handler e with
        | Some h => h p'
        | None => (Raised e, p')
        end
    | other => other
    end.

Definition sys_exit {A} (code : nat) : Cmd A := fun p => (SystemExit code, p).

Definition attempt_cmd {A} (a : attempt A) : Cmd A :=
  fun p =>
    match a with
    | Done v => (Value v, p)
    | Failed e => (Raised e, p)
    end.

Definition log_record_cmd (r : record) : Cmd unit :=
  fun p =>
    (Value tt, {| records := (records p ++ [r])%list;
                  stdout := stdout p; files := files p |}).

Definition logging_error (msg : string) : Cmd unit :=
  log_record_cmd (Logged {| levelname := ERROR; message := msg |}).

Definition logging_info (msg : string) : Cmd unit :=
  log_record_cmd (LoggedInfo msg).

Definition newline : string := String (ascii_of_nat 10) "".

Definition print {G} (env : Env G) (text : string) : Cmd unit :=
  fun p =>
    match print_failure env text with
    | Some e => (Raised e, p)
    | None =>
        (Value tt, {| records := records p;
                      stdout := stdout p ++ text ++ newline;
                      files := files p |})
    end.

(** [with open(path, 'w') as f: f.write(text)] *)
Definition write {G} (env : Env G) (path text : string) : Cmd unit :=
  fun p =>
    match write_file env path text with
    | Some e =>
        (Raised e,
         {| records := records p; stdout := stdout p;
            files := match left_behind env path text with
                     | Some partial => (files p ++ [(path, partial)])%list
                     | None => files p
                     end |})
    | None =>
        (Value tt, {| records := records p; stdout := stdout p;
                      files := (files p ++ [(path, text)])%list |})
    end.

(** [DataPatternScrambler(locale).scramble_text(text, names)]: the records
    of the scrambler go to the log of the process. *)
Definition scramble {G} (env : Env G) (locale text : string)
  (names : option (list string)) : Cmd string :=
  fun p =>
    match new_provider env locale with
    | Failed e => (Raised e, p)
    | Done (fake, g) =>
        let (r, w) := scramble_text fake text names {| rng := g; log := [] |} in
        let p' := {| records := (records p ++ map Logged (log w))%list;
                     stdout := stdout p; files := files p |} in
        match r with
        | Ok out => (Value out, p')
        | Raise e => (Raised (OtherError (exn_str e)), p')
        end
    end.

Declare Scope cmd_scope.
Delimit Scope cmd_scope with cmd.
Notation "x <- c ;; k" := (then_cmd c (fun x => k))
  (at level 61, c at next level, right associativity) : cmd_scope.
Notation "c ;; k" := (then_cmd c (fun _ => k))
  (at level 61, right associativity) : cmd_scope.
Local Open Scope cmd_scope.

(** Python's truth of an optional string and of an optional list. *)
Definition truthy (o : option string) : option string :=
  match o with
  | Some s => if s =? "" then None else Some s
  | None => None
  end.

Definition valid_patterns : list string :=
  ["phone_number"; "credit_card"; "email"; "ip_address"].

Definition is_valid (pattern : string) : bool :=
  existsb (String.eqb pattern) valid_patterns.

Definition invalid_pattern_error (pattern : string) : record :=
  Logged {| levelname := ERROR;
            message := "Invalid pattern: " ++ pattern ++ ".  Must be one of: "
                       ++ String.concat ", " valid_patterns |}.

(** The validation loop of [main]. *)
Fixpoint validate (names : list string) : Cmd unit :=
  match names with
  | [] => unit_cmd tt
  | pattern :: rest =>
      if negb (is_valid pattern) then
        log_record_cmd (invalid_pattern_error pattern) ;; sys_exit 1
      else validate rest
  end.

Section Main.
Context {G : Type}.
Variable env : Env G.
Variable args : Namespace.

Definition read_input : Cmd string :=
  match truthy (args_file args) with
  | Some path =>
      try_cmd (attempt_cmd (read_file env path))
        (fun e =>
           match e with
           | FileNotFoundError _ =>
               Some (logging_error ("File not found: " ++ path) ;; sys_exit 1)
           | IOError _ =>
               Some (logging_error ("Error reading file: " ++ io_str e) ;;
                     sys_exit 1)
           | OtherError _ => None
           end)
  | None =>
      match truthy (args_input_text args) with
      | Some text => unit_cmd text
      | None => attempt_cmd (stdin_read env)
      end
  end.

Definition write_output (scrambled_text : string) : Cmd unit :=
  match truthy (args_output args) with
  | Some path =>
      try_cmd
        (write env path scrambled_text ;;
         logging_info ("Scrambled data written to: " ++ path))
        (fun e =>
           match e with
           | FileNotFoundError _ | IOError _ =>
               Some (logging_error ("Error writing to file: " ++ io_str e) ;;
                     sys_exit 1)
           | OtherError _ => None
           end)
  | None => print env scrambled_text
  end.

(** The body of [main] from the line after [parse_args], which has
    returned [args]. *)
Definition main : Cmd unit :=
  (match args_patterns args with
   | Some (pattern :: rest) => validate (pattern :: rest)
   | _ => unit_cmd tt
   end) ;;
  try_cmd
    (input_text <- read_input ;;
     scrambled_text <-
       scramble env (args_locale args) input_text (args_patterns args) ;;
     write_output scrambled_text)
    (fun e =>
       Some (logging_error ("An unexpected error occurred: " ++ io_str e) ;;
             sys_exit 1)).

End Main.


(** The input [main] works on, in the words of its help texts: the file
    if one is given, else the text of the command line, else the standard
    input. *)
Definition input_of {G} (env : Env G) (args : Namespace) : attempt string :=
  match truthy (args_file args) with
  | Some path => read_file env path
  | None =>
      match truthy (args_input_text args) with
      | Some text => Done text
      | None => stdin_read env
      end
  end.

(** The arguments with another text on the command line. *)
Definition with_input_text (args : Namespace) (text : option string)
  : Namespace :=
  {| args_input_text := text; args_patterns := args_patterns args;
     args_locale := args_locale args; args_file := args_file args;
     args_output := args_output args |}.

(** The request names only categories [main] accepts. *)
Definition valid_request (args : Namespace) : Prop :=
  forall names, args_patterns args = Some names ->
                forallb is_valid names = true.

Definition error_record (msg : string) : record :=
  Logged {| levelname := ERROR; message := msg |}.

Definition is_warning (r : record) : Prop :=
  exists msg, r = Logged {| levelname := WARNING; message := msg |}.

Definition test_args : Namespace := {|
  args_input_text := None; args_patterns := None; args_locale := "en_US";
  args_file := None; args_output := None
|}.

(** A test environment: one file, a standard input, the fixed provider,
    one path that can be written, one on a full disk, the others not to be
    opened. *)
Definition test_env : Env nat := {|
  parse_args := Parsed test_args;
  read_file := fun path =>
    if path =? "in.txt" then Done "mail jane@example.com"
    else Failed (FileNotFoundError "No such file or directory");
  stdin_read := Done "call 5551234";
  new_provider := fun locale =>
    if locale =? "en_US" then Done (fixed_faker, 0)
    else Failed (OtherError "Invalid configuration for faker locale");
  write_file := fun path text =>
    if path =? "out.txt" then None
    else if path =? "full.txt" then Some (IOError "No space left on device")
    else Some (IOError "Permission denied");
  left_behind := fun path text =>
    if path =? "full.txt" then Some "" else None;
  print_failure := fun _ => None
|}.


Definition test_request (text : option string) (names : option (list string))
  (file output : option string) : Namespace := {|
  args_input_text := text; args_patterns := names; args_locale := "en_US";
  args_file := file; args_output := output
|}.

End Cli.

(* ================================================================= *)
(** ** Strings: append and length *)

Lemma append_nil_r (s : string) : s ++ "" = s.
Proof. induction s as [|a s IH]; simpl; [reflexivity | now rewrite IH]. Qed.

Lemma append_assoc (a b c : string) : (a ++ b) ++ c = a ++ (b ++ c).
Proof. induction a as [|x a IH]; simpl; [reflexivity | now rewrite IH]. Qed.

Lemma length_append (a b : string) :
  String.length (a ++ b) = String.length a + String.length b.
Proof. induction a as [|x a IH]; simpl; [reflexivity | now rewrite IH]. Qed.

Lemma length_zero (s : string) : String.length s = 0 -> s = "".
Proof. destruct s; simpl; [reflexivity | discriminate]. Qed.

Lemma append_inv_head (a b c : string) : a ++ b = a ++ c -> b = c.
Proof.
  induction a as [|x a IH]; simpl; intros H; [assumption |].
  injection H as H. now apply IH.
Qed.



Lemma eqb_empty (s : string) : (s =? "") = true <-> s = "".
Proof. apply String.eqb_eq. Qed.

Lemma str_concat_app (l1 l2 : list string) :
  str_concat (l1 ++ l2) = str_concat l1 ++ str_concat l2.
Proof.
  induction l1 as [|x l1 IH]; simpl; [reflexivity |].
  now rewrite IH, append_assoc.
Qed.

(* ================================================================= *)
(** ** The matcher finds words of the pattern, and finds them all *)

Module ReFacts.
Import Re.

Lemma in_and_then (rs : results) (k : string -> results) w rest :
  List.In (w, rest) (and_then rs k) <->
  exists w1 s1 w2,
    List.In (w1, s1) rs /\ List.In (w2, rest) (k s1) /\ w = w1 ++ w2.
Proof.
  unfold and_then. rewrite in_flat_map. split.
  - intros [[w1 s1] [H1 H2]]. simpl in H2. apply in_map_iff in H2.
    destruct H2 as [[w2 s2] [E H2]]. simpl in E. injection E as <- <-.
    now exists w1, s1, w2.
  - intros (w1 & s1 & w2 & H1 & H2 & ->). exists (w1, s1). split; [assumption|].
    simpl. apply in_map_iff. now exists (w2, rest).
Qed.

Section Repeat.
Variable mb : string -> results.
Variable L : string -> Prop.

Hypothesis mb_sound :
  forall s w rest, List.In (w, rest) (mb s) -> s = w ++ rest /\ L w.

Lemma repeat_more_sound greedy fuel :
  forall extra s w rest,
    List.In (w, rest) (repeat_more mb greedy extra fuel s) ->
    s = w ++ rest /\
    exists ws, w = str_concat ws /\ Forall L ws /\
               (forall h, extra = Some h -> List.length ws <= h).
Proof.
  induction fuel as [|fuel IH]; intros extra s w rest H.
  - simpl in H. destruct H as [H|[]]. injection H as <- <-.
    split; [reflexivity|]. exists []. repeat split; simpl; auto.
    intros; lia.
  - simpl in H.
    assert (Hnil : (w, rest) = ("", s) ->
             s = w ++ rest /\
             exists ws, w = str_concat ws /\ Forall L ws /\
               (forall h, extra = Some h -> List.length ws <= h)).
    { intros E. injection E as -> ->. split; [reflexivity|].
      exists []. repeat split; simpl; auto. intros; lia. }
    assert (Hagain :
      List.In (w, rest)
        (match extra with
         | Some 0 => []
         | _ => and_then
                  (filter (fun p => (String.length (snd p) <? String.length s)%nat)
                     (mb s))
                  (repeat_more mb greedy (option_map pred extra) fuel)
         end) ->
      s = w ++ rest /\
      exists ws, w = str_concat ws /\ Forall L ws /\
                 (forall h, extra = Some h -> List.length ws <= h)).
    { intros Hin.
      assert (Hin' : List.In (w, rest)
                (and_then
                  (filter (fun p => (String.length (snd p) <? String.length s)%nat)
                     (mb s))
                  (repeat_more mb greedy (option_map pred extra) fuel)) /\
                extra <> Some 0).
      { destruct extra as [[|h]|]; [destruct Hin | |]; split; auto; discriminate. }
      destruct Hin' as [Hin' Hne]. apply in_and_then in Hin'.
      destruct Hin' as (w1 & s1 & w2 & H1 & H2 & ->).
      apply filter_In in H1. destruct H1 as [H1 _].
      apply mb_sound in H1. destruct H1 as [-> HL].
      apply IH in H2. destruct H2 as [-> (ws & -> & HF & Hlen)].
      split; [now rewrite append_assoc|].
      exists (w1 :: ws). repeat split; auto.
      intros h ->. simpl. destruct h as [|h]; [congruence|].
      specialize (Hlen h eq_refl). lia. }
    destruct greedy.
    + apply in_app_or in H. destruct H as [H|[H|[]]]; auto.
    + destruct H as [H|H]; auto.
Qed.

Lemma repeat_min_sound (tail : string -> results) n :
  forall s w rest,
    List.In (w, rest) (repeat_min mb tail n s) ->
    exists ws w2 s1,
      w = str_concat ws ++ w2 /\ s = str_concat ws ++ s1 /\
      List.length ws = n /\ Forall L ws /\ List.In (w2, rest) (tail s1).
Proof.
  induction n as [|n IH]; intros s w rest H; simpl in H.
  - exists [], w, s. simpl. auto.
  - apply in_and_then in H. destruct H as (w1 & s1 & w2 & H1 & H2 & ->).
    apply mb_sound in H1. destruct H1 as [-> HL].
    apply IH in H2. destruct H2 as (ws & w3 & s2 & -> & -> & Hn & HF & Ht).
    exists (w1 :: ws), w3, s2. simpl. rewrite !append_assoc.
    repeat split; auto.
Qed.

Hypothesis mb_complete :
  forall w rest, L w -> List.In (w, rest) (mb (w ++ rest)).

Lemma repeat_more_complete greedy :
  forall ws fuel extra rest,
    Forall (fun w => L w /\ w <> "") ws ->
    (forall h, extra = Some h -> List.length ws <= h) ->
    String.length (str_concat ws ++ rest) <= fuel ->
    List.In (str_concat ws, rest)
      (repeat_more mb greedy extra fuel (str_concat ws ++ rest)).
Proof.
  induction ws as [|w1 ws IH]; intros fuel extra rest HF Hlen Hfuel.
  - simpl. destruct fuel as [|fuel]; simpl; [now left|].
    destruct greedy; [apply in_or_app; right|]; now left.
  - inversion HF as [|? ? [HL Hne] HF']; subst.
    simpl str_concat in *. rewrite append_assoc in *.
    assert (Hw1 : 0 < String.length w1).
    { destruct w1; [congruence | simpl; lia]. }
    rewrite length_append in Hfuel.
    destruct fuel as [|fuel]; [lia|].
    assert (Hagain :
      List.In (w1 ++ str_concat ws, rest)
        (and_then
           (filter (fun p => (String.length (snd p) <?
                              String.length (w1 ++ str_concat ws ++ rest))%nat)
              (mb (w1 ++ str_concat ws ++ rest)))
           (repeat_more mb greedy (option_map pred extra) fuel))).
    { apply in_and_then. exists w1, (str_concat ws ++ rest), (str_concat ws).
      split; [|split; [|reflexivity]].
      - apply filter_In. split; [now apply mb_complete|].
        simpl. apply Nat.ltb_lt. rewrite (length_append w1). lia.
      - apply IH; auto.
        + intros h Hh. destruct extra as [e|]; [|discriminate].
          simpl in Hh. injection Hh as <-.
          specialize (Hlen e eq_refl). simpl in Hlen. lia.
        + lia. }
    assert (Hex : extra <> Some 0).
    { intros ->. specialize (Hlen 0 eq_refl). simpl in Hlen. lia. }
    simpl repeat_more.
    destruct extra as [[|e]|]; [congruence | |];
      (destruct greedy; [apply in_or_app; left | right]); exact Hagain.
Qed.

Lemma repeat_min_complete (tail : string -> results) :
  forall ws w2 rest,
    Forall L ws ->
    List.In (w2, rest) (tail (w2 ++ rest)) ->
    List.In (str_concat ws ++ w2, rest)
      (repeat_min mb tail (List.length ws) (str_concat ws ++ w2 ++ rest)).
Proof.
  induction ws as [|w1 ws IH]; intros w2 rest HF Ht; simpl.
  - assumption.
  - inversion HF; subst. rewrite !append_assoc.
    apply in_and_then. exists w1, (str_concat ws ++ w2 ++ rest), (str_concat ws ++ w2).
    split; [now apply mb_complete|]. split; [now apply IH | reflexivity].
Qed.

End Repeat.

Lemma str_concat_nonempty (l : list string) :
  str_concat (filter (fun w => negb (w =? "")) l) = str_concat l.
Proof.
  induction l as [|x l IH]; simpl; [reflexivity|].
  destruct (String.eqb_spec x "") as [->|Hx]; simpl; now rewrite IH.
Qed.

Lemma Forall_nonempty (L : string -> Prop) (l : list string) :
  Forall L l ->
  Forall (fun w => L w /\ w <> "") (filter (fun w => negb (w =? "")) l).
Proof.
  induction 1 as [|x l Hx HF IH]; simpl; [constructor|].
  destruct (String.eqb_spec x "") as [->|Hne]; simpl; auto.
Qed.

Theorem matches_at_sound (r : regex) :
  forall s w rest,
    List.In (w, rest) (matches_at r s) -> s = w ++ rest /\ lang r w.
Proof.
  induction r as [| c | items | r1 IH1 r2 IH2 | r1 IH1 r2 IH2
                 | greedy lo hi r IH | cap r IH]; intros s w rest H; simpl in *.
  - destruct H as [H|[]]. injection H as <- <-. now split.
  - destruct s as [|a s']; [destruct H|].
    destruct (Ascii.eqb_spec c a) as [->|]; [|destruct H].
    destruct H as [H|[]]. injection H as <- <-. now split.
  - destruct s as [|a s']; [destruct H|].
    destruct (in_charset items a) eqn:E; [|destruct H].
    destruct H as [H|[]]. injection H as <- <-. split; [reflexivity|].
    now exists a.
  - apply in_and_then in H. destruct H as (w1 & s1 & w2 & H1 & H2 & ->).
    apply IH1 in H1. destruct H1 as [-> L1].
    apply IH2 in H2. destruct H2 as [-> L2].
    split; [now rewrite append_assoc|]. now exists w1, w2.
  - apply in_app_or in H. destruct H as [H|H]; [apply IH1 in H | apply IH2 in H];
      destruct H; auto.
  - apply (repeat_min_sound _ _ IH) in H.
    destruct H as (ws & w2 & s1 & -> & -> & Hn & HF & Ht).
    apply (repeat_more_sound _ _ IH) in Ht.
    destruct Ht as [-> (ws2 & -> & HF2 & Hlen)].
    split; [now rewrite append_assoc|].
    exists (ws ++ ws2)%list. rewrite str_concat_app, length_app.
    repeat split; [lia | | now apply Forall_app].
    intros h ->. specialize (Hlen (h - lo) eq_refl). lia.
  - now apply IH.
Qed.

Theorem matches_at_complete (r : regex) :
  forall w, lang r w -> forall rest, List.In (w, rest) (matches_at r (w ++ rest)).
Proof.
  induction r as [| c | items | r1 IH1 r2 IH2 | r1 IH1 r2 IH2
                 | greedy lo hi r IH | cap r IH]; intros w H rest; simpl in *.
  - subst. now left.
  - subst. simpl. rewrite Ascii.eqb_refl. now left.
  - destruct H as (a & Ha & ->). simpl. rewrite Ha. now left.
  - destruct H as (w1 & w2 & -> & L1 & L2). rewrite append_assoc.
    apply in_and_then. exists w1, (w2 ++ rest), w2. auto.
  - apply in_or_app. destruct H; auto.
  - destruct H as (ws & -> & Hlo & Hhi & HF).
    rewrite <- (firstn_skipn lo ws) in HF |- *.
    apply Forall_app in HF. destruct HF as [HF1 HF2].
    rewrite str_concat_app, <- (str_concat_nonempty (skipn lo ws)), append_assoc.
    assert (Hn : List.length (firstn lo ws) = lo) by (rewrite length_firstn; lia).
    assert (IH' : forall w rest, lang r w ->
                    List.In (w, rest) (matches_at r (w ++ rest))) by auto.
    rewrite <- Hn at 3.
    apply (repeat_min_complete (matches_at r) (lang r) IH'); [assumption|].
    apply (repeat_more_complete (matches_at r) (lang r) IH').
    + now apply Forall_nonempty.
    + intros h Hh. destruct hi as [h'|]; [|discriminate].
      simpl in Hh. injection Hh as <-. specialize (Hhi h' eq_refl).
      pose proof (filter_length_le (fun w => negb (w =? "")) (skipn lo ws)).
      rewrite length_skipn in H. lia.
    + lia.
  - now apply IH.
Qed.

(** A pattern's words are at least [min_width] long. *)
Lemma str_concat_min_length (L : string -> Prop) (n : nat) (ws : list string) :
  Forall (fun w => L w /\ n <= String.length w) ws ->
  List.length ws * n <= String.length (str_concat ws).
Proof.
  induction 1 as [|w ws [_ Hw] _ IH]; simpl; [lia|].
  rewrite length_append. lia.
Qed.

Lemma lang_min_width (r : regex) :
  forall w, lang r w -> min_width r <= String.length w.
Proof.
  induction r as [| c | items | r1 IH1 r2 IH2 | r1 IH1 r2 IH2
                 | greedy lo hi r IH | cap r IH]; intros w H; simpl in *.
  - lia.
  - subst. simpl. lia.
  - destruct H as (a & _ & ->). simpl. lia.
  - destruct H as (w1 & w2 & -> & L1 & L2). rewrite length_append.
    specialize (IH1 _ L1). specialize (IH2 _ L2). lia.
  - destruct H as [H|H]; [specialize (IH1 _ H) | specialize (IH2 _ H)]; lia.
  - destruct H as (ws & -> & Hlo & _ & HF).
    assert (HF' : Forall (fun w => lang r w /\ min_width r <= String.length w) ws).
    { eapply Forall_impl; [|exact HF]. intros a Ha. split; auto. }
    apply str_concat_min_length in HF'. nia.
  - now apply IH.
Qed.

(** What [first_match] reports is a word of the pattern at the position. *)
Lemma first_match_some r ma s w rest :
  first_match r ma s = Some (w, rest) ->
  s = w ++ rest /\ lang r w /\ (ma = true -> w <> "").
Proof.
  unfold first_match. intros H. apply find_some in H. destruct H as [Hin Hf].
  apply matches_at_sound in Hin. destruct Hin as [-> HL].
  repeat split; auto. intros -> ->. discriminate.
Qed.

Lemma first_match_none r ma s :
  first_match r ma s = None ->
  forall w rest, s = w ++ rest -> lang r w -> ma = true /\ w = "".
Proof.
  unfold first_match. intros H w rest -> HL.
  pose proof (find_none _ _ H _ (matches_at_complete r w HL rest)) as Hf.
  simpl in Hf. apply negb_false_iff, andb_true_iff in Hf.
  destruct Hf as [-> Hw]. now apply String.eqb_eq in Hw.
Qed.

Lemma search_some r :
  forall s ma skipped w rest,
    search r ma s = Some (skipped, w, rest) ->
    s = skipped ++ w ++ rest /\ lang r w /\
    (ma = true -> skipped = "" -> w <> "") /\
    free_of r skipped.
Proof.
  induction s as [|a s IH]; intros ma skipped w rest H; simpl in H.
  - destruct (first_match r ma "") as [[w0 rest0]|] eqn:E; [|discriminate].
    injection H as <- <- <-. apply first_match_some in E.
    destruct E as (E & HL & Hma). repeat split; auto.
    intros [|] u post Hu _; [|discriminate].
    destruct u; [reflexivity | discriminate].
  - destruct (first_match r ma (String a s)) as [[w0 rest0]|] eqn:E.
    + injection H as <- <- <-. apply first_match_some in E.
      destruct E as (E & HL & Hma). repeat split; auto.
      intros [|] u post Hu _; [|discriminate].
      destruct u; [reflexivity | discriminate].
    + destruct (search r false s) as [[[sk w0] rest0]|] eqn:E2; [|discriminate].
      injection H as <- <- <-. apply IH in E2.
      destruct E2 as (-> & HL & _ & Hfree). repeat split; auto.
      * discriminate.
      * intros pre u post Hu Hlang. destruct pre as [|b pre].
        -- simpl in Hu.
           assert (Hs : String a (sk ++ w0 ++ rest0) = u ++ (post ++ w0 ++ rest0)).
           { change (String a (sk ++ w0 ++ rest0))
               with (String a sk ++ w0 ++ rest0).
             rewrite Hu. now rewrite !append_assoc. }
           now destruct (first_match_none _ _ _ E _ _ Hs Hlang).
        -- simpl in Hu. injection Hu as _ Hu. now apply (Hfree pre u post).
Qed.

Lemma search_none r :
  forall s ma,
    search r ma s = None ->
    forall pre u post, s = pre ++ u ++ post -> lang r u ->
      ma = true /\ pre = "" /\ u = "".
Proof.
  induction s as [|a s IH]; intros ma H pre u post Hs HL; simpl in H.
  - destruct (first_match r ma "") as [[w0 rest0]|] eqn:E; [discriminate|].
    destruct pre; [|discriminate]. simpl in Hs.
    destruct (first_match_none _ _ _ E _ _ Hs HL). auto.
  - destruct (first_match r ma (String a s)) as [[w0 rest0]|] eqn:E;
      [discriminate|].
    destruct (search r false s) as [[[sk w0] rest0]|] eqn:E2; [discriminate|].
    destruct pre as [|b pre].
    + simpl in Hs. destruct (first_match_none _ _ _ E _ _ Hs HL). auto.
    + simpl in Hs. injection Hs as _ Hs.
      destruct (IH false E2 pre u post Hs HL) as [? _]. discriminate.
Qed.

Lemma search_absent r s ma : ~ occurs r s -> search r ma s = None.
Proof.
  intros Hno. destruct (search r ma s) as [[[sk w] rest]|] eqn:E; [|reflexivity].
  apply search_some in E. destruct E as (-> & HL & _).
  exfalso. apply Hno. now exists sk, w, rest.
Qed.

Lemma search_none_absent r s : search r false s = None -> ~ occurs r s.
Proof.
  intros H (pre & u & post & Hs & HL).
  destruct (search_none _ _ _ H _ _ _ Hs HL). discriminate.
Qed.

(** The segments of a scan put the text back together, every match is a
    word of the pattern and no text between matches holds another. *)
Lemma segments_weave r :
  forall fuel ma s, weave (fst (segments fuel r ma s)) (snd (segments fuel r ma s)) = s.
Proof.
  induction fuel as [|fuel IH]; intros ma s; simpl; [reflexivity|].
  destruct (search r ma s) as [[[sk w] rest]|] eqn:E; [|reflexivity].
  specialize (IH (w =? "") rest).
  destruct (segments fuel r (w =? "") rest) as [segs tail]. simpl in *.
  apply search_some in E. destruct E as (-> & _). now rewrite IH.
Qed.

Lemma segments_matches r :
  forall fuel ma s,
    Forall (fun seg => free_of r (fst seg) /\ lang r (snd seg))
      (fst (segments fuel r ma s)).
Proof.
  induction fuel as [|fuel IH]; intros ma s; simpl; [constructor|].
  destruct (search r ma s) as [[[sk w] rest]|] eqn:E; [|constructor].
  specialize (IH (w =? "") rest).
  destruct (segments fuel r (w =? "") rest) as [segs tail]. simpl in *.
  apply search_some in E. destruct E as (_ & HL & _ & Hfree).
  constructor; auto.
Qed.

Lemma segments_tail r :
  forall fuel (ma : bool) s,
    2 * String.length s + (if ma then 0 else 1) < fuel ->
    free_of r (snd (segments fuel r ma s)).
Proof.
  induction fuel as [|fuel IH]; intros ma s Hfuel; [lia|]. simpl.
  destruct (search r ma s) as [[[sk w] rest]|] eqn:E.
  - assert (Hlt : 2 * String.length rest + (if w =? "" then 0 else 1) < fuel).
    { apply search_some in E. destruct E as (-> & _ & Hma & _).
      rewrite !length_append in Hfuel.
      destruct (String.eqb_spec w "") as [->|Hw].
      - destruct ma.
        + destruct sk; [now specialize (Hma eq_refl eq_refl) | simpl in Hfuel; lia].
        + simpl in Hfuel. lia.
      - destruct w; [congruence|]. simpl in Hfuel. destruct ma; lia. }
    specialize (IH (w =? "") rest Hlt).
    now destruct (segments fuel r (w =? "") rest).
  - simpl. intros pre u post Hs HL.
    now destruct (search_none _ _ _ E _ _ _ Hs HL) as (_ & _ & ->).
Qed.

(** More fuel than the scan needs changes nothing. *)
Lemma segments_fuel r :
  forall f1 f2 (ma : bool) s,
    2 * String.length s + (if ma then 0 else 1) < f1 ->
    2 * String.length s + (if ma then 0 else 1) < f2 ->
    segments f1 r ma s = segments f2 r ma s.
Proof.
  induction f1 as [|f1 IH]; intros f2 ma s H1 H2; [lia|].
  destruct f2 as [|f2]; [lia|]. simpl.
  destruct (search r ma s) as [[[sk w] rest]|] eqn:E; [|reflexivity].
  assert (Hlt : forall f, 2 * String.length s + (if ma then 0 else 1) < S f ->
                  2 * String.length rest + (if w =? "" then 0 else 1) < f).
  { intros f Hf. apply search_some in E. destruct E as (-> & _ & Hma & _).
    rewrite !length_append in Hf.
    destruct (String.eqb_spec w "") as [->|Hw].
    - destruct ma.
      + destruct sk; [now specialize (Hma eq_refl eq_refl) | simpl in Hf; lia].
      + simpl in Hf. lia.
    - destruct w; [congruence|]. simpl in Hf. destruct ma; lia. }
  now rewrite (IH f2 (w =? "") rest (Hlt _ H1) (Hlt _ H2)).
Qed.

Lemma finditer_weave r s :
  weave (fst (finditer r s)) (snd (finditer r s)) = s.
Proof. apply segments_weave. Qed.

Lemma finditer_matches r s :
  Forall (fun seg => free_of r (fst seg) /\ lang r (snd seg)) (fst (finditer r s)).
Proof. apply segments_matches. Qed.

Lemma finditer_tail r s : free_of r (snd (finditer r s)).
Proof. apply segments_tail. unfold scan_fuel. lia. Qed.

Lemma finditer_absent r s : ~ occurs r s -> finditer r s = ([], s).
Proof.
  intros H. unfold finditer, scan_fuel.
  replace (2 * String.length s + 2) with (S (2 * String.length s + 1)) by lia.
  simpl. now rewrite search_absent.
Qed.

End ReFacts.

(* ================================================================= *)
(** ** [re.sub] over the segments of a scan *)

Section SubFacts.
Context {G : Type}.
Implicit Types (repl : Match -> M G string) (w : World G).

Lemma sub_loop_fill r repl :
  forall fuel ma s w,
    sub_loop fuel r repl ma s w =
    fill repl (fst (Re.segments fuel r ma s)) (snd (Re.segments fuel r ma s)) w.
Proof.
  induction fuel as [|fuel IH]; intros ma s w; simpl; [reflexivity|].
  destruct (Re.search r ma s) as [[[sk x] rest]|]; [|reflexivity].
  destruct (Re.segments fuel r (x =? "") rest) as [segs tail] eqn:E.
  simpl. unfold bind. destruct (repl {| group0 := x |} w) as [[item|e] w1];
    [|reflexivity].
  now rewrite IH, E.
Qed.

Lemma re_sub_fill r repl text w :
  re_sub r repl text w =
  fill repl (fst (Re.finditer r text)) (snd (Re.finditer r text)) w.
Proof. apply sub_loop_fill. Qed.

Lemma fill_substitute repl method category :
  (forall x w,
      repl {| group0 := x |} w =
      (Ok (fst (generate_or_keep method category x w)),
       snd (generate_or_keep method category x w))) ->
  forall segs tail w,
    fill repl segs tail w =
    (Ok (fst (substitute method category segs tail w)),
     snd (substitute method category segs tail w)).
Proof.
  intros Hrepl. induction segs as [|[gap x] segs IH]; intros tail w; simpl.
  - reflexivity.
  - unfold bind. rewrite Hrepl.
    destruct (generate_or_keep method category x w) as [item w1]. simpl.
    rewrite IH. now destruct (substitute method category segs tail w1).
Qed.

(** The output of a pass is the text with one item in place of each match. *)
Lemma substitute_shape method category :
  forall segs tail w,
    exists items,
      List.length items = List.length segs /\
      fst (substitute method category segs tail w) =
      weave (combine (map fst segs) items) tail.
Proof.
  induction segs as [|[gap x] segs IH]; intros tail w; simpl.
  - now exists [].
  - destruct (generate_or_keep method category x w) as [item w1].
    destruct (IH tail w1) as (items & Hlen & Hout).
    destruct (substitute method category segs tail w1) as [out w2].
    simpl in *. exists (item :: items). simpl. now rewrite Hlen, Hout.
Qed.

End SubFacts.

(* ================================================================= *)
(** ** The scrambler *)

Section ScramblerFacts.
Context {G : Type}.
Variable fake : Faker G.
Implicit Types (w : World G) (text name : string).

Lemma generate_fake_value_known name method mt w :
  method_of fake name = Some method ->
  generate_fake_value fake name mt w =
  (Ok (fst (generate_or_keep method name (group0 mt) w)),
   snd (generate_or_keep method name (group0 mt) w)).
Proof.
  unfold method_of, generate_fake_value, generate_or_keep, try_except, draw.
  intros H.
  repeat match type of H with
         | (if ?c then _ else _) = _ => destruct c
         end;
    try discriminate; injection H as <-;
    match goal with
    | |- context [?f fake (rng w)] => destruct (f fake (rng w)) as [[v|e] g]
    end; reflexivity.
Qed.

Lemma generate_fake_value_unknown name mt w :
  method_of fake name = None ->
  generate_fake_value fake name mt w =
  (Ok (group0 mt),
   {| rng := rng w;
      log := (log w ++
              [{| levelname := WARNING;
                  message := "No faker method for pattern: " ++ name |}])%list |}).
Proof.
  unfold method_of, generate_fake_value, try_except.
  intros H.
  repeat match type of H with
         | (if ?c then _ else _) = _ => destruct c
         end;
    try discriminate. reflexivity.
Qed.

Lemma known_method name r :
  dict_get patterns name = Some r ->
  exists method, method_of fake name = Some method.
Proof.
  unfold patterns, method_of. cbn [dict_get].
  rewrite !(String.eqb_sym _ name).
  repeat match goal with
         | |- context [if ?c then _ else _] => destruct c
         end; intros H; try discriminate; eauto.
Qed.

Lemma unknown_name name :
  dict_contains patterns name = false <-> dict_get patterns name = None.
Proof.
  unfold dict_contains. destruct (dict_get patterns name); split; congruence.
Qed.

(** A pass of a known category, in terms of its segments. *)
Lemma replace_pattern_substitute text r name method w :
  method_of fake name = Some method ->
  replace_pattern fake text r name w =
  (Ok (fst (substitute method name (fst (Re.finditer r text))
              (snd (Re.finditer r text)) w)),
   snd (substitute method name (fst (Re.finditer r text))
          (snd (Re.finditer r text)) w)).
Proof.
  intros Hm. unfold replace_pattern, try_except.
  rewrite re_sub_fill.
  rewrite (fill_substitute _ method name); [reflexivity|].
  intros x w'. now apply (generate_fake_value_known name method {| group0 := x |}).
Qed.

Lemma scramble_step_known text name r method w :
  dict_get patterns name = Some r ->
  method_of fake name = Some method ->
  scramble_step fake name text w =
  (Ok (fst (substitute method name (fst (Re.finditer r text))
              (snd (Re.finditer r text)) w)),
   snd (substitute method name (fst (Re.finditer r text))
          (snd (Re.finditer r text)) w)).
Proof.
  intros Hr Hm. unfold scramble_step, dict_contains. rewrite Hr. simpl.
  now apply replace_pattern_substitute.
Qed.

Lemma scramble_step_unknown text name w :
  dict_get patterns name = None ->
  scramble_step fake name text w =
  (Ok text, {| rng := rng w; log := (log w ++ [unknown_warning name])%list |}).
Proof.
  intros Hr. unfold scramble_step, dict_contains. now rewrite Hr.
Qed.

(** No step of the loop raises. *)
Lemma scramble_step_returns text name w :
  exists out w', scramble_step fake name text w = (Ok out, w').
Proof.
  destruct (dict_get patterns name) as [r|] eqn:Hr.
  - destruct (known_method _ _ Hr) as [method Hm].
    rewrite (scramble_step_known _ _ _ _ _ Hr Hm). eauto.
  - rewrite (scramble_step_unknown _ _ _ Hr). eauto.
Qed.

Lemma scramble_loop_returns names :
  forall text w, exists out w', scramble_loop fake names text w = (Ok out, w').
Proof.
  induction names as [|name names IH]; intros text w; simpl.
  - unfold ret. eauto.
  - unfold bind. destruct (scramble_step_returns text name w) as (t1 & w1 & ->).
    apply IH.
Qed.

(** A step leaves a text without a match of its pattern as it is, and the
    provider untouched. *)
Lemma scramble_step_absent text name w :
  (forall r, dict_get patterns name = Some r -> ~ Re.occurs r text) ->
  exists l, scramble_step fake name text w =
            (Ok text, {| rng := rng w; log := (log w ++ l)%list |}).
Proof.
  intros Hno. destruct (dict_get patterns name) as [r|] eqn:Hr.
  - destruct (known_method _ _ Hr) as [method Hm].
    rewrite (scramble_step_known _ _ _ _ _ Hr Hm).
    rewrite (ReFacts.finditer_absent _ _ (Hno r eq_refl)). simpl.
    exists []. rewrite app_nil_r. now destruct w.
  - rewrite (scramble_step_unknown _ _ _ Hr). eauto.
Qed.

Lemma scramble_loop_absent names :
  forall text w,
    (forall name r, List.In name names -> dict_get patterns name = Some r ->
                    ~ Re.occurs r text) ->
    exists l, scramble_loop fake names text w =
              (Ok text, {| rng := rng w; log := (log w ++ l)%list |}).
Proof.
  induction names as [|name names IH]; intros text w Hno; simpl.
  - exists []. rewrite app_nil_r. now destruct w.
  - unfold bind.
    destruct (scramble_step_absent text name w) as (l1 & ->).
    { intros r Hr. apply (Hno name r); simpl; auto. }
    destruct (IH text {| rng := rng w; log := (log w ++ l1)%list |}) as (l2 & ->).
    { intros n r Hin. apply Hno. now right. }
    simpl. exists (l1 ++ l2)%list. now rewrite app_assoc.
Qed.

End ScramblerFacts.

(* ================================================================= *)
(** ** The log is written, never read *)

Section LogFacts.
Context {G : Type}.
Variable fake : Faker G.

Lemma log_transparent_bind {A B} (c : M G A) (k : A -> M G B) :
  log_transparent c -> (forall a, log_transparent (k a)) ->
  log_transparent (bind c k).
Proof.
  intros Hc Hk g l. unfold bind. rewrite (Hc g l).
  destruct (c {| rng := g; log := [] |}) as [[a|e] [g1 l1]]; simpl.
  - rewrite (Hk a g1 (l ++ l1)%list), (Hk a g1 l1).
    destruct (k a {| rng := g1; log := [] |}) as [rb [g2 l2]]; simpl.
    now rewrite app_assoc.
  - reflexivity.
Qed.

Lemma generate_or_keep_transparent (method : G -> result string * G) category x :
  forall g l,
    generate_or_keep method category x {| rng := g; log := l |} =
    (fst (generate_or_keep method category x {| rng := g; log := [] |}),
     {| rng := rng (snd (generate_or_keep method category x {| rng := g; log := [] |}));
        log := (l ++ log (snd (generate_or_keep method category x
                                 {| rng := g; log := [] |})))%list |}).
Proof.
  intros g l. unfold generate_or_keep. simpl.
  destruct (method g) as [[v|e] g1]; simpl; [now rewrite app_nil_r | reflexivity].
Qed.

Lemma substitute_transparent (method : G -> result string * G) category :
  forall segs tail g l,
    substitute method category segs tail {| rng := g; log := l |} =
    (fst (substitute method category segs tail {| rng := g; log := [] |}),
     {| rng := rng (snd (substitute method category segs tail {| rng := g; log := [] |}));
        log := (l ++ log (snd (substitute method category segs tail
                                 {| rng := g; log := [] |})))%list |}).
Proof.
  induction segs as [|[gap x] segs IH]; intros tail g l; simpl.
  - now rewrite app_nil_r.
  - rewrite (generate_or_keep_transparent method category x g l).
    destruct (generate_or_keep method category x {| rng := g; log := [] |})
      as [item [g1 l1]]. simpl.
    rewrite (IH tail g1 (l ++ l1)%list), (IH tail g1 l1).
    destruct (substitute method category segs tail {| rng := g1; log := [] |})
      as [out [g2 l2]]. simpl. now rewrite app_assoc.
Qed.

Lemma scramble_step_transparent name text :
  log_transparent (scramble_step fake name text).
Proof.
  intros g l. destruct (dict_get patterns name) as [r|] eqn:Hr.
  - destruct (known_method fake _ _ Hr) as [method Hm].
    rewrite !(scramble_step_known fake _ _ _ _ _ Hr Hm).
    rewrite (substitute_transparent method name _ _ g l). reflexivity.
  - rewrite !(scramble_step_unknown fake _ _ _ Hr). reflexivity.
Qed.

Lemma scramble_loop_transparent names :
  forall text, log_transparent (scramble_loop fake names text).
Proof.
  induction names as [|name names IH]; intros text.
  - intros g l. simpl. unfold ret. simpl. now rewrite app_nil_r.
  - simpl. apply log_transparent_bind; [apply scramble_step_transparent | auto].
Qed.

(** Runs from worlds that differ only in the log give the same text and
    leave the provider in the same state, and keep what was logged. *)
Lemma transparent_same {A} (c : M G A) (w1 w2 : World G) :
  log_transparent c -> rng w1 = rng w2 ->
  fst (c w1) = fst (c w2) /\ rng (snd (c w1)) = rng (snd (c w2)).
Proof.
  intros Hc Hrng. destruct w1 as [g l1], w2 as [g2 l2]. simpl in Hrng. subst g2.
  rewrite (Hc g l1), (Hc g l2). simpl. auto.
Qed.

Lemma transparent_keeps {A} (c : M G A) (w : World G) (x : log_record) :
  log_transparent c -> List.In x (log w) -> List.In x (log (snd (c w))).
Proof.
  intros Hc Hin. destruct w as [g l]. rewrite (Hc g l). simpl.
  apply in_or_app. now left.
Qed.

Lemma scramble_loop_known_only names :
  forall text (w1 w2 : World G),
    rng w1 = rng w2 ->
    fst (scramble_loop fake names text w1) =
    fst (scramble_loop fake (filter (dict_contains patterns) names) text w2) /\
    rng (snd (scramble_loop fake names text w1)) =
    rng (snd (scramble_loop fake (filter (dict_contains patterns) names) text w2)).
Proof.
  induction names as [|name names IH]; intros text w1 w2 Hrng; simpl.
  - auto.
  - destruct (dict_contains patterns name) eqn:Hk; simpl.
    + unfold bind.
      destruct (transparent_same _ w1 w2 (scramble_step_transparent name text) Hrng)
        as [Hfst Hg].
      destruct (scramble_step fake name text w1) as [[t1|e1] w1'],
               (scramble_step fake name text w2) as [[t2|e2] w2'];
        simpl in *; try discriminate.
      * injection Hfst as <-. now apply IH.
      * auto.
    + unfold bind. apply unknown_name in Hk.
      rewrite (scramble_step_unknown fake _ _ _ Hk). now apply IH.
Qed.

Lemma scramble_loop_warns names :
  forall text (w : World G) name,
    List.In name names -> dict_contains patterns name = false ->
    List.In (unknown_warning name) (log (snd (scramble_loop fake names text w))).
Proof.
  induction names as [|n names IH]; intros text w name Hin Hk; [destruct Hin|].
  simpl. unfold bind. destruct Hin as [->|Hin].
  - apply unknown_name in Hk. rewrite (scramble_step_unknown fake _ _ _ Hk).
    apply transparent_keeps; [apply scramble_loop_transparent|].
    simpl. apply in_or_app. right. now left.
  - destruct (scramble_step_returns fake text n w) as (t1 & w1 & ->).
    now apply IH.
Qed.

End LogFacts.

(* ================================================================= *)
(** ** Failing providers, and the loop as a fold *)

Section PassFacts.
Context {G : Type}.
Variable fake : Faker G.

Lemma substitute_all_fail (method : G -> result string * G) category :
  (forall g, exists e g', method g = (Raise e, g')) ->
  forall segs tail w,
    fst (substitute method category segs tail w) = weave segs tail.
Proof.
  intros Hfail. induction segs as [|[gap x] segs IH]; intros tail w; simpl.
  - reflexivity.
  - unfold generate_or_keep. destruct (Hfail (rng w)) as (e & g' & ->).
    match goal with
    | |- context [substitute method category segs tail ?w1] =>
        specialize (IH tail w1);
        destruct (substitute method category segs tail w1) as [out w2]
    end.
    simpl in *. now rewrite IH.
Qed.

Lemma fold_scramble_loop names :
  forall (acc : M G string) w,
    fold_left (fun acc name => t <- acc ;; scramble_step fake name t) names acc w =
    (t <- acc ;; scramble_loop fake names t) w.
Proof.
  induction names as [|name names IH]; intros acc w; simpl.
  - unfold bind, ret. now destruct (acc w) as [[t|e] w'].
  - rewrite IH. unfold bind. now destruct (acc w) as [[t|e] w'].
Qed.

End PassFacts.

(* ================================================================= *)
(** ** The four patterns *)

Lemma patterns_cases name r :
  dict_get patterns name = Some r ->
  (name = "phone_number" /\ r = Patterns.phone_number) \/
  (name = "credit_card" /\ r = Patterns.credit_card) \/
  (name = "email" /\ r = Patterns.email) \/
  (name = "ip_address" /\ r = Patterns.ip_address).
Proof.
  unfold patterns. cbn [dict_get].
  repeat match goal with
         | |- context [if (?k =? name) then _ else _] =>
             destruct (String.eqb_spec k name) as [<-|_]
         end; intros H; try discriminate; injection H as <-; auto.
Qed.

(** No pattern of the table matches the empty text. *)
Lemma patterns_width name r :
  dict_get patterns name = Some r -> 6 <= min_width r.
Proof.
  intros H. apply patterns_cases in H.
  destruct H as [[_ ->]|[[_ ->]|[[_ ->]|[_ ->]]]]; vm_compute; lia.
Qed.

Lemma free_of_absent name r text :
  dict_get patterns name = Some r -> free_of r text -> ~ Re.occurs r text.
Proof.
  intros Hr Hfree (pre & u & post & Hs & HL).
  pose proof (Hfree _ _ _ Hs HL) as ->.
  apply ReFacts.lang_min_width in HL. apply patterns_width in Hr.
  simpl in HL. lia.
Qed.

Lemma absent_in_empty name r :
  dict_get patterns name = Some r -> ~ Re.occurs r "".
Proof.
  intros Hr. apply (free_of_absent name); [assumption|].
  intros [|] u post Hs _; [|discriminate]. destruct u; [reflexivity|discriminate].
Qed.

(* ================================================================= *)
(** ** Reading the words of a pattern *)

Module LangFacts.
Import Re Syntax.

Lemma lang_Seq r1 r2 w :
  lang (Seq r1 r2) w <-> exists w1 w2, w = w1 ++ w2 /\ lang r1 w1 /\ lang r2 w2.
Proof. reflexivity. Qed.

Lemma lang_Branch r1 r2 w : lang (Branch r1 r2) w <-> lang r1 w \/ lang r2 w.
Proof. reflexivity. Qed.

Lemma lang_Subpattern c r w : lang (Subpattern c r) w <-> lang r w.
Proof. reflexivity. Qed.

Lemma lang_Literal c w : lang (Literal c) w <-> w = String c "".
Proof. reflexivity. Qed.

Lemma lang_Empty w : lang Empty w <-> w = "".
Proof. reflexivity. Qed.

Lemma lang_In items w :
  lang (In items) w <-> exists a, in_charset items a = true /\ w = String a "".
Proof. reflexivity. Qed.

Lemma lang_exactly g n r w :
  lang (Repeat g n (Some n) r) w <->
  exists ws, w = str_concat ws /\ List.length ws = n /\ Forall (lang r) ws.
Proof.
  simpl. split.
  - intros (ws & -> & Hlo & Hhi & HF). exists ws. repeat split; auto.
    specialize (Hhi n eq_refl). lia.
  - intros (ws & -> & Hn & HF). exists ws. repeat split; auto; [lia|].
    intros h [= <-]. lia.
Qed.

Lemma lang_optional g r w :
  lang (Repeat g 0 (Some 1) r) w <-> w = "" \/ lang r w.
Proof.
  simpl. split.
  - intros (ws & -> & _ & Hhi & HF). specialize (Hhi 1 eq_refl).
    destruct ws as [|x [|y ws]]; simpl in *; [now left | | lia].
    right. rewrite append_nil_r. now inversion HF.
  - intros [->|H].
    + exists []. repeat split; simpl; auto. intros; lia.
    + exists [w]. simpl. rewrite append_nil_r. repeat split; auto.
      intros h [= <-]. lia.
Qed.

Lemma in_range lo hi a :
  in_charset [SetRange lo hi] a = true <-> code lo <= code a <= code hi.
Proof.
  unfold in_charset. simpl. rewrite orb_false_r, andb_true_iff, !Nat.leb_le.
  reflexivity.
Qed.

Lemma in_digit a : in_charset [SetCategory CATEGORY_DIGIT] a = true <-> is_decimal a = true.
Proof. unfold in_charset. simpl. now rewrite orb_false_r. Qed.

Lemma is_decimal_code a : is_decimal a = true <-> 48 <= code a <= 57.
Proof. unfold is_decimal. now rewrite andb_true_iff, !Nat.leb_le. Qed.

Lemma in_two x y a :
  in_charset [SetLiteral x; SetLiteral y] a = true <-> a = x \/ a = y.
Proof.
  unfold in_charset. simpl. rewrite orb_false_r, orb_true_iff, !Ascii.eqb_eq.
  split; (intros [H|H]; [left | right]; congruence).
Qed.

Lemma all_digits_cons c s :
  all_digits (String c s) <-> is_decimal c = true /\ all_digits s.
Proof. unfold all_digits. simpl. apply Forall_cons_iff. Qed.

Lemma all_digits_nil : all_digits "".
Proof. constructor. Qed.

(** A run of [n] digits is a word of [\d{n}]. *)
Lemma lang_digits :
  forall d n, all_digits d -> String.length d = n -> lang (exactly n digit) d.
Proof.
  intros d n Hd Hn. apply lang_exactly.
  exists (map (fun c => String c "") (list_ascii_of_string d)). subst n.
  induction d as [|c d IH]; simpl.
  - repeat split. constructor.
  - apply all_digits_cons in Hd. destruct Hd as [Hc Hd].
    destruct (IH Hd) as (E & L & F). repeat split.
    + now rewrite <- E.
    + now rewrite L.
    + constructor; [|assumption]. exists c. split; [|reflexivity].
      now apply in_digit.
Qed.

End LangFacts.

(** One step of reading a hypothesis [lang r w] by the shape of [r]. *)
Ltac read_lang :=
  repeat match goal with
    | H : Re.lang (Re.Seq _ _) _ |- _ =>
        apply (proj1 (LangFacts.lang_Seq _ _ _)) in H; destruct H as (? & ? & ? & ? & ?)
    | H : Re.lang (Re.Branch _ _) _ |- _ =>
        apply (proj1 (LangFacts.lang_Branch _ _ _)) in H; destruct H as [H|H]
    | H : Re.lang (Re.Subpattern _ _) _ |- _ =>
        apply (proj1 (LangFacts.lang_Subpattern _ _ _)) in H
    | H : Re.lang (Re.Literal _) _ |- _ => apply (proj1 (LangFacts.lang_Literal _ _)) in H
    | H : Re.lang Re.Empty _ |- _ => apply (proj1 (LangFacts.lang_Empty _)) in H
    | H : Re.lang (Re.Repeat _ 0 (Some 1) _) _ |- _ =>
        apply (proj1 (LangFacts.lang_optional _ _ _)) in H; destruct H as [H|H]
    | H : Re.lang (Re.In [Re.SetRange _ _]) _ |- _ =>
        apply (proj1 (LangFacts.lang_In _ _)) in H; destruct H as (? & H & ?);
        apply (proj1 (LangFacts.in_range _ _ _)) in H
    | H : Re.lang (Re.In [Re.SetLiteral _; Re.SetLiteral _]) _ |- _ =>
        apply (proj1 (LangFacts.lang_In _ _)) in H; destruct H as (? & H & ?);
        apply (proj1 (LangFacts.in_two _ _ _)) in H; destruct H as [H|H]
    | H : Re.lang (Re.In [Re.SetCategory Re.CATEGORY_DIGIT]) _ |- _ =>
        apply (proj1 (LangFacts.lang_In _ _)) in H; destruct H as (? & H & ?);
        apply (proj1 (LangFacts.in_digit _)) in H
    end; subst.

(** The code of a character that is written out. *)
Ltac known_codes :=
  repeat match goal with
    | H : context [Re.code (Ascii ?a ?b ?c ?d ?e ?f ?g ?h)] |- _ =>
        let v := eval vm_compute in (Re.code (Ascii a b c d e f g h)) in
        change (Re.code (Ascii a b c d e f g h)) with v in H
    | |- context [Re.code (Ascii ?a ?b ?c ?d ?e ?f ?g ?h)] =>
        let v := eval vm_compute in (Re.code (Ascii a b c d e f g h)) in
        change (Re.code (Ascii a b c d e f g h)) with v
    end.

Module IpFacts.
Import Re Syntax LangFacts.

Ltac octet_digits :=
  repeat (apply all_digits_cons; split; [apply is_decimal_code; known_codes; lia|]);
  apply all_digits_nil.

Lemma lang_octet o : lang Patterns.octet o -> is_octet o.
Proof.
  unfold Patterns.octet, group, branch, seq, str, range, optional, one_of.
  cbn [fold_right map]. intros H. read_lang.
  all: known_codes; simpl; unfold is_octet, decimal_value, digit_value; simpl.
  all: known_codes; (split; [octet_digits | split; simpl; lia]).
Qed.

Lemma lang_octet_dot x :
  lang (Subpattern true (Seq Patterns.octet (Seq (Literal ".") Empty))) x ->
  exists o, is_octet o /\ x = o ++ ".".
Proof.
  intros H. read_lang.
  match goal with
  | H : lang Patterns.octet ?o |- _ =>
      exists o; split; [now apply lang_octet | reflexivity]
  end.
Qed.

Lemma lang_ip_address w : lang Patterns.ip_address w -> dotted_quad w.
Proof.
  unfold Patterns.ip_address, seq, exactly, group. cbn [fold_right].
  intros H. apply (proj1 (lang_Seq _ _ _)) in H.
  destruct H as (w1 & w2 & -> & H1 & H2).
  apply (proj1 (lang_exactly _ _ _ _)) in H1.
  destruct H1 as (ws & -> & Hlen & HF).
  destruct ws as [|x1 [|x2 [|x3 [|x4 ws]]]]; try discriminate.
  inversion HF as [|? ? F1 HF1]; subst.
  inversion HF1 as [|? ? F2 HF2]; subst.
  inversion HF2 as [|? ? F3 _]; subst.
  apply lang_octet_dot in F1, F2, F3.
  destruct F1 as (o1 & O1 & ->), F2 as (o2 & O2 & ->), F3 as (o3 & O3 & ->).
  apply (proj1 (lang_Seq _ _ _)) in H2.
  destruct H2 as (o4 & e & -> & O4 & ->). apply lang_octet in O4.
  exists o1, o2, o3, o4. simpl.
  rewrite !append_nil_r, !append_assoc. simpl. auto.
Qed.

End IpFacts.

(* ================================================================= *)
(** ** Where a scan finds its first match *)

Module ScanFacts.
Import Re Syntax LangFacts.

Lemma search_first_match r ma s w rest :
  first_match r ma s = Some (w, rest) -> search r ma s = Some ("", w, rest).
Proof. intros H. destruct s; simpl; now rewrite H. Qed.

(** A text that is a shortest word of the pattern is one match, whole. *)
Lemma first_match_exact_width r d :
  lang r d -> String.length d = min_width r ->
  first_match r false d = Some (d, "").
Proof.
  intros HL Hlen. destruct (first_match r false d) as [[w rest]|] eqn:E.
  - apply ReFacts.first_match_some in E. destruct E as (E & Hw & _).
    apply ReFacts.lang_min_width in Hw.
    assert (Hrest : String.length rest = 0).
    { rewrite E, length_append in Hlen. lia. }
    apply length_zero in Hrest. subst rest. rewrite append_nil_r in E.
    now subst w.
  - destruct (ReFacts.first_match_none _ _ _ E d "") as [? _];
      [now rewrite append_nil_r | assumption | discriminate].
Qed.

Lemma finditer_whole r d :
  first_match r false d = Some (d, "") -> 0 < min_width r ->
  finditer r d = ([("", d)], "").
Proof.
  intros Hfirst Hpos. unfold finditer, scan_fuel.
  replace (2 * String.length d + 2) with (S (S (2 * String.length d))) by lia.
  simpl. rewrite (search_first_match _ _ _ _ _ Hfirst).
  rewrite ReFacts.search_absent; [reflexivity|].
  intros (pre & u & post & Hs & Hu).
  apply ReFacts.lang_min_width in Hu.
  assert (String.length (pre ++ u ++ post) = 0) by now rewrite <- Hs.
  rewrite !length_append in *. lia.
Qed.

Lemma finditer_exact_width r d :
  lang r d -> String.length d = min_width r -> 0 < min_width r ->
  finditer r d = ([("", d)], "").
Proof.
  intros HL Hlen Hpos. apply finditer_whole; [|assumption].
  now apply first_match_exact_width.
Qed.






(** Runs of seven and of ten digits are words of the phone pattern. *)
Lemma lang_lazy_optional_empty r : lang (lazy_optional r) "".
Proof. apply lang_optional. now left. Qed.

Lemma split_digits n d :
  all_digits d -> n <= String.length d ->
  exists d1 d2, d = d1 ++ d2 /\ all_digits d1 /\ all_digits d2 /\
                String.length d1 = n.
Proof.
  revert d. induction n as [|n IH]; intros d Hd Hn.
  - exists "", d. repeat split; auto. apply all_digits_nil.
  - destruct d as [|c d]; [simpl in Hn; lia|].
    apply all_digits_cons in Hd. destruct Hd as [Hc Hd]. simpl in Hn.
    destruct (IH d Hd) as (d1 & d2 & -> & H1 & H2 & Hlen); [lia|].
    exists (String c d1), d2. repeat split; auto.
    + apply all_digits_cons. auto.
    + simpl. now rewrite Hlen.
Qed.

Lemma lang_phone_seven d :
  all_digits d -> String.length d = 7 -> lang Patterns.phone_seven d.
Proof.
  intros Hd Hlen.
  destruct (split_digits 3 d Hd) as (d1 & d2 & -> & H1 & H2 & L1); [lia|].
  rewrite length_append in Hlen.
  unfold Patterns.phone_seven, seq. cbn [fold_right].
  apply lang_Seq. exists d1, d2. split; [reflexivity|].
  split; [now apply lang_digits|].
  apply lang_Seq. exists "", d2. split; [reflexivity|].
  split; [apply lang_lazy_optional_empty|].
  apply lang_Seq. exists d2, "". split; [now rewrite append_nil_r|].
  split; [apply lang_digits; [assumption | lia] | reflexivity].
Qed.


Lemma lang_phone_number_seven d :
  lang Patterns.phone_seven d -> lang Patterns.phone_number d.
Proof. intros H. right. right. exact H. Qed.


End ScanFacts.

(* ================================================================= *)
(** ** Properties of the specification *)

(** C1.  In a pass of one category the text is cut into the matches the
    scan finds, left to right and side by side, and the text around them;
    every match is a word of the category's pattern, the text around the
    matches holds no other, and the output is the same text with one item
    in place of each match: nothing else moves, goes or comes twice.  A text
    in which no requested valid category has a match comes back as it is. *)
Theorem C1_only_matches_are_substituted {G : Type} (fake : Faker G) :
  (forall name r text w,
      dict_get patterns name = Some r ->
      exists segs tail items w',
        Re.finditer r text = (segs, tail) /\
        text = weave segs tail /\
        Forall (fun seg => ~ Re.occurs r (fst seg) /\ Re.lang r (snd seg)) segs /\
        ~ Re.occurs r tail /\
        List.length items = List.length segs /\
        replace_pattern fake text r name w =
        (Ok (weave (combine (map fst segs) items) tail), w')) /\
  (forall text names w,
      (forall name r, List.In name (effective names) ->
                      dict_get patterns name = Some r -> ~ Re.occurs r text) ->
      fst (scramble_text fake text names w) = Ok text).
Proof.
  split.
  - intros name r text w Hr.
    destruct (known_method fake _ _ Hr) as [method Hm].
    pose proof (ReFacts.finditer_weave r text) as Hweave.
    pose proof (ReFacts.finditer_matches r text) as Hmatches.
    pose proof (ReFacts.finditer_tail r text) as Htail.
    rewrite (replace_pattern_substitute fake text r name method w Hm).
    destruct (Re.finditer r text) as [segs tail]. simpl in *.
    destruct (substitute_shape method name segs tail w) as (items & Hlen & Hout).
    exists segs, tail, items, (snd (substitute method name segs tail w)).
    repeat split; auto.
    + eapply Forall_impl; [|exact Hmatches].
      intros seg [Hfree HL]. split; [|assumption].
      now apply (free_of_absent name).
    + now apply (free_of_absent name).
    + now rewrite Hout.
  - intros text names w Hno. unfold scramble_text. fold (effective names).
    destruct (scramble_loop_absent fake (effective names) text w Hno) as [l ->].
    reflexivity.
Qed.

(** An instance of C1: a text with no e-mail address, the category
    [email] and an unknown name. *)
Lemma C1_witness :
  (forall name r, List.In name (effective (Some ["email"; "ssn"])) ->
                  dict_get patterns name = Some r ->
                  ~ Re.occurs r "call 555 now") /\
  fst (scramble_text fixed_faker "call 555 now" (Some ["email"; "ssn"]) world0)
  = Ok "call 555 now".
Proof.
  assert (H : forall name r, List.In name (effective (Some ["email"; "ssn"])) ->
                dict_get patterns name = Some r ->
                ~ Re.occurs r "call 555 now").
  { intros name r [<-|[<-|[]]] Hr.
    - injection Hr as <-. apply ReFacts.search_none_absent. vm_compute. reflexivity.
    - discriminate Hr. }
  split; [exact H|].
  exact (proj2 (C1_only_matches_are_substituted fixed_faker) _ _ world0 H).
Defined.

(** C2.  On every text and every request [scramble_text] returns a text
    and does not raise; the empty text gives the empty text; a text in which
    no requested valid category has a match is returned as it is. *)
Theorem C2_scramble_text_never_raises {G : Type} (fake : Faker G)
  (text : string) (names : option (list string)) (w : World G) :
  (exists out w', scramble_text fake text names w = (Ok out, w')) /\
  (exists w', scramble_text fake "" names w = (Ok "", w')) /\
  ((forall name r, List.In name (effective names) ->
                   dict_get patterns name = Some r -> ~ Re.occurs r text) ->
   exists w', scramble_text fake text names w = (Ok text, w')).
Proof.
  unfold scramble_text. fold (effective names). repeat split.
  - apply scramble_loop_returns.
  - destruct (scramble_loop_absent fake (effective names) "" w) as [l ->]; eauto.
    intros name r _ Hr. now apply (absent_in_empty name).
  - intros Hno.
    destruct (scramble_loop_absent fake (effective names) text w Hno) as [l ->].
    eauto.
Qed.

Lemma C2_witness :
  (forall name r, List.In name (effective None) ->
                  dict_get patterns name = Some r ->
                  ~ Re.occurs r "not an address: 1.2.3, @home") /\
  exists w', scramble_text failing_faker "not an address: 1.2.3, @home" None world0
             = (Ok "not an address: 1.2.3, @home", w').
Proof.
  assert (H : forall name r, List.In name (effective None) ->
                dict_get patterns name = Some r ->
                ~ Re.occurs r "not an address: 1.2.3, @home").
  { intros name r Hin Hr. apply ReFacts.search_none_absent.
    destruct (patterns_cases _ _ Hr) as [[_ ->]|[[_ ->]|[[_ ->]|[_ ->]]]];
      vm_compute; reflexivity. }
  split; [exact H|].
  exact (proj2 (proj2 (C2_scramble_text_never_raises failing_faker _ None world0)) H).
Defined.

(** C3.  A name outside the table raises nothing and changes no text: it is
    logged as a warning and passed over, and the valid names of the request
    are applied all the same: the text returned and the provider's state are
    those of the request without the unknown names. *)
Theorem C3_unknown_names_are_skipped {G : Type} (fake : Faker G)
  (text : string) (names : list string) (w : World G) :
  let known := filter (dict_contains patterns) names in
  (exists out w', scramble_text fake text (Some names) w = (Ok out, w')) /\
  fst (scramble_text fake text (Some names) w) =
  fst (scramble_text fake text (Some known) w) /\
  rng (snd (scramble_text fake text (Some names) w)) =
  rng (snd (scramble_text fake text (Some known) w)) /\
  (forall name,
      List.In name names -> dict_contains patterns name = false ->
      List.In (unknown_warning name)
        (log (snd (scramble_text fake text (Some names) w)))) /\
  (forall name rest,
      dict_contains patterns name = false ->
      scramble_text fake text (Some (name :: rest)) w =
      scramble_text fake text (Some rest)
        {| rng := rng w; log := (log w ++ [unknown_warning name])%list |}).
Proof.
  unfold scramble_text. repeat split.
  - apply scramble_loop_returns.
  - now apply scramble_loop_known_only.
  - now apply scramble_loop_known_only.
  - intros name Hin Hk. now apply scramble_loop_warns.
  - intros name rest Hk. simpl. unfold bind. apply unknown_name in Hk.
    now rewrite (scramble_step_unknown fake _ _ _ Hk).
Qed.

Lemma C3_witness :
  List.In "ssn" ["email"; "ssn"; "ip_address"] /\
  dict_contains patterns "ssn" = false /\
  List.In (unknown_warning "ssn")
    (log (snd (scramble_text fixed_faker "jane@example.com at 10.1.2.3"
                 (Some ["email"; "ssn"; "ip_address"]) world0))).
Proof.
  assert (Hin : List.In "ssn" ["email"; "ssn"; "ip_address"]) by (simpl; auto).
  assert (Hk : dict_contains patterns "ssn" = false) by reflexivity.
  split; [exact Hin|]. split; [exact Hk|].
  exact (proj1 (proj2 (proj2 (proj2
           (C3_unknown_names_are_skipped fixed_faker
              "jane@example.com at 10.1.2.3"
              ["email"; "ssn"; "ip_address"] world0)))) "ssn" Hin Hk).
Defined.

(** C4.  When the provider raises for a match, [generate_fake_value] logs
    the error and returns the match itself; so a pass never stops half way:
    it is the text with every match, in turn, either replaced by the
    provider's value or, on an error, left as it was, and the loop goes on
    to the categories that follow.  With a provider that always fails the
    text of a pass is the text it was given. *)
Theorem C4_failed_generation_keeps_the_match {G : Type} (fake : Faker G)
  (name : string) (r : Re.regex) (method : G -> result string * G) :
  dict_get patterns name = Some r ->
  method_of fake name = Some method ->
  (forall mt w e g,
      method (rng w) = (Raise e, g) ->
      generate_fake_value fake name mt w =
      (Ok (group0 mt),
       {| rng := g;
          log := (log w ++
                  [{| levelname := ERROR;
                      message := "Error generating fake value for " ++ name
                                 ++ ": " ++ exn_str e |}])%list |})) /\
  (forall text w,
      replace_pattern fake text r name w =
      (Ok (fst (substitute method name (fst (Re.finditer r text))
                  (snd (Re.finditer r text)) w)),
       snd (substitute method name (fst (Re.finditer r text))
              (snd (Re.finditer r text)) w))) /\
  (forall text rest w,
      scramble_loop fake (name :: rest) text w =
      scramble_loop fake rest
        (fst (substitute method name (fst (Re.finditer r text))
                (snd (Re.finditer r text)) w))
        (snd (substitute method name (fst (Re.finditer r text))
                (snd (Re.finditer r text)) w))) /\
  (forall text w,
      (forall g, exists e g', method g = (Raise e, g')) ->
      fst (replace_pattern fake text r name w) = Ok text).
Proof.
  intros Hr Hm. repeat split.
  - intros mt w e g Hraise.
    rewrite (generate_fake_value_known fake name method mt w Hm).
    unfold generate_or_keep. now rewrite Hraise.
  - intros text w. now apply replace_pattern_substitute.
  - intros text rest w. simpl. unfold bind.
    now rewrite (scramble_step_known fake _ _ _ _ _ Hr Hm).
  - intros text w Hfail.
    rewrite (replace_pattern_substitute fake text r name method w Hm). simpl.
    rewrite (substitute_all_fail method name Hfail).
    now rewrite ReFacts.finditer_weave.
Qed.

Lemma C4_witness :
  dict_get patterns "email" = Some Patterns.email /\
  method_of failing_faker "email" = Some (email failing_faker) /\
  (forall g, exists e g', email failing_faker g = (Raise e, g')) /\
  fst (replace_pattern failing_faker "a@b.cd, then c@d.ef" Patterns.email
         "email" world0) = Ok "a@b.cd, then c@d.ef".
Proof.
  assert (Hfail : forall g, exists e g', email failing_faker g = (Raise e, g')).
  { intros g. exists (Exception "no provider"), (S g). reflexivity. }
  split; [reflexivity|]. split; [reflexivity|]. split; [exact Hfail|].
  exact (proj2 (proj2 (proj2
           (C4_failed_generation_keeps_the_match failing_faker "email"
              Patterns.email (email failing_faker) eq_refl eq_refl)))
           "a@b.cd, then c@d.ef" world0 Hfail).
Defined.

(** C5.  Without a list of categories the four of the table are applied,
    in the order phone_number, credit_card, email, ip_address; with a list,
    its names are applied from first to last, and the order shows: the same
    two categories in either order give different texts. *)
Theorem C5_effective_category_order {G : Type} (fake : Faker G)
  (text : string) (w : World G) :
  scramble_text fake text None w =
  (t1 <- replace_pattern fake text Patterns.phone_number "phone_number" ;;
   t2 <- replace_pattern fake t1 Patterns.credit_card "credit_card" ;;
   t3 <- replace_pattern fake t2 Patterns.email "email" ;;
   t4 <- replace_pattern fake t3 Patterns.ip_address "ip_address" ;;
   ret t4) w /\
  scramble_text fake text None w =
  scramble_text fake text
    (Some ["phone_number"; "credit_card"; "email"; "ip_address"]) w /\
  (forall names,
      scramble_text fake text (Some names) w =
      fold_left (fun acc name => t <- acc ;; scramble_step fake name t)
        names (ret text) w) /\
  fst (scramble_text fixed_faker "a@b.cd" (Some ["email"; "phone_number"]) world0)
  = Ok "user(555)867-5309@example.org" /\
  fst (scramble_text fixed_faker "a@b.cd" (Some ["phone_number"; "email"]) world0)
  = Ok "user5551234@example.org".
Proof.
  split; [reflexivity|]. split; [reflexivity|]. split; [|split].
  - intros names. unfold scramble_text. now rewrite fold_scramble_loop.
  - vm_compute. reflexivity.
  - vm_compute. reflexivity.
Qed.

(** C6.  Each category is searched for in the text as the categories
    before it left it, not in the text first given; so a value put in by one
    category can give a later category a match it had not (an e-mail
    address with seven digits in it, then phone_number), or take one away (a
    card number whose first ten digits phone_number replaces). *)
Theorem C6_categories_apply_in_sequence :
  (forall (G : Type) (fake : Faker G) name r names text (w : World G),
      dict_get patterns name = Some r ->
      scramble_text fake text (Some (name :: names)) w =
      match replace_pattern fake text r name w with
      | (Ok current, w') => scramble_text fake current (Some names) w'
      | (Raise e, w') => (Raise e, w')
      end) /\
  (~ Re.occurs Patterns.phone_number "a@b.cd" /\
   fst (replace_pattern fixed_faker "a@b.cd" Patterns.email "email" world0)
   = Ok "user5551234@example.org" /\
   fst (scramble_text fixed_faker "a@b.cd" (Some ["email"; "phone_number"]) world0)
   = Ok "user(555)867-5309@example.org") /\
  (Re.occurs Patterns.credit_card "4111111111111111" /\
   fst (replace_pattern fixed_faker "4111111111111111" Patterns.phone_number
          "phone_number" world0)
   = Ok "(555)867-5309111111" /\
   ~ Re.occurs Patterns.credit_card "(555)867-5309111111" /\
   fst (scramble_text fixed_faker "4111111111111111"
          (Some ["phone_number"; "credit_card"]) world0)
   = Ok "(555)867-5309111111").
Proof.
  split; [|split].
  - intros G fake name r names text w Hr. unfold scramble_text. simpl.
    unfold bind, scramble_step, dict_contains. now rewrite Hr.
  - split; [|split].
    + apply ReFacts.search_none_absent. vm_compute. reflexivity.
    + vm_compute. reflexivity.
    + vm_compute. reflexivity.
  - split; [|split; [|split]].
    + exists "", "4111111111111111", "". split; [reflexivity|].
      destruct (ReFacts.matches_at_sound Patterns.credit_card
                  "4111111111111111" "4111111111111111" "") as [_ HL];
        [vm_compute; auto | exact HL].
    + vm_compute. reflexivity.
    + apply ReFacts.search_none_absent. vm_compute. reflexivity.
    + vm_compute. reflexivity.
Qed.

Lemma C6_witness :
  dict_get patterns "email" = Some Patterns.email /\
  scramble_text fixed_faker "a@b.cd" (Some ["email"; "phone_number"]) world0 =
  match replace_pattern fixed_faker "a@b.cd" Patterns.email "email" world0 with
  | (Ok current, w') =>
      scramble_text fixed_faker current (Some ["phone_number"]) w'
  | (Raise e, w') => (Raise e, w')
  end.
Proof.
  split; [reflexivity|].
  exact (proj1 C6_categories_apply_in_sequence nat fixed_faker "email"
           Patterns.email ["phone_number"] "a@b.cd" world0 eq_refl).
Defined.

(** C10.  An empty list of categories applies none: the text comes back as
    it is and nothing else happens.  Only an absent list stands for the four
    categories of the table. *)
Theorem C10_empty_list_applies_nothing {G : Type} (fake : Faker G)
  (text : string) (w : World G) :
  scramble_text fake text (Some []) w = (Ok text, w) /\
  scramble_text fake text None w =
  scramble_text fake text
    (Some ["phone_number"; "credit_card"; "email"; "ip_address"]) w /\
  fst (scramble_text fixed_faker "5551234" None world0) <>
  fst (scramble_text fixed_faker "5551234" (Some []) world0).
Proof.
  repeat split. vm_compute. discriminate.
Qed.

(** C7.  Every word of the ip_address pattern is a dotted quad whose four
    octets are numerals of one to three digits with a value of at most 255.
    No part of "999.999.999.999" is such a word, and [scramble_text] with
    the category [ip_address] gives that text back and does nothing else. *)
Theorem C7_ip_address_octets_in_range :
  (forall w, Re.lang Patterns.ip_address w -> dotted_quad w) /\
  ~ Re.occurs Patterns.ip_address "999.999.999.999" /\
  (forall (G : Type) (fake : Faker G) (w : World G),
      scramble_text fake "999.999.999.999" (Some ["ip_address"]) w =
      (Ok "999.999.999.999", w)).
Proof.
  assert (Hno : ~ Re.occurs Patterns.ip_address "999.999.999.999").
  { apply ReFacts.search_none_absent. vm_compute. reflexivity. }
  split; [exact IpFacts.lang_ip_address|]. split; [exact Hno|].
  intros G fake w. unfold scramble_text. simpl. unfold bind.
  rewrite (scramble_step_known fake "999.999.999.999" "ip_address"
             Patterns.ip_address (ipv4 fake) w eq_refl eq_refl).
  rewrite (ReFacts.finditer_absent _ _ Hno). reflexivity.
Qed.

Lemma C7_witness :
  Re.lang Patterns.ip_address "192.168.1.25" /\ dotted_quad "192.168.1.25".
Proof.
  assert (H : Re.lang Patterns.ip_address "192.168.1.25").
  { destruct (ReFacts.matches_at_sound Patterns.ip_address
                "192.168.1.25" "192.168.1.25" "") as [_ HL];
      [vm_compute; auto | exact HL]. }
  split; [exact H|].
  exact (proj1 C7_ip_address_octets_in_range "192.168.1.25" H).
Defined.

(** C8.  A run of exactly seven digits is a word of the third alternative
    of the phone_number pattern, hence of the pattern; taken alone as the
    text, it is the one match of the phone_number pass and is replaced by
    what the generator gives for it: the provider's value when it returns
    one.  So it is with "5551234". *)
Theorem C8_seven_digits_are_a_phone_number (d : string) :
  all_digits d -> String.length d = 7 ->
  Re.lang Patterns.phone_seven d /\
  Re.lang Patterns.phone_number d /\
  Re.finditer Patterns.phone_number d = ([("", d)], "") /\
  (forall (G : Type) (fake : Faker G) (w : World G),
      scramble_text fake d (Some ["phone_number"]) w =
      (Ok (fst (generate_or_keep (phone_number fake) "phone_number" d w)),
       snd (generate_or_keep (phone_number fake) "phone_number" d w))) /\
  (forall (G : Type) (fake : Faker G) (w : World G) v g,
      phone_number fake (rng w) = (Ok v, g) ->
      scramble_text fake d (Some ["phone_number"]) w =
      (Ok v, {| rng := g; log := log w |})).
Proof.
  intros Hd Hlen.
  pose proof (ScanFacts.lang_phone_seven d Hd Hlen) as H7.
  pose proof (ScanFacts.lang_phone_number_seven d H7) as HL.
  assert (Hit : Re.finditer Patterns.phone_number d = ([("", d)], "")).
  { apply ScanFacts.finditer_exact_width; [assumption | now rewrite Hlen |].
    vm_compute. lia. }
  assert (Hrun : forall (G : Type) (fake : Faker G) (w : World G),
             scramble_text fake d (Some ["phone_number"]) w =
             (Ok (fst (generate_or_keep (phone_number fake) "phone_number" d w)),
              snd (generate_or_keep (phone_number fake) "phone_number" d w))).
  { intros G fake w. unfold scramble_text. simpl. unfold bind.
    rewrite (scramble_step_known fake d "phone_number"
               Patterns.phone_number (phone_number fake) w eq_refl eq_refl).
    rewrite Hit. simpl.
    destruct (generate_or_keep (phone_number fake) "phone_number" d w)
      as [item w1]. simpl. now rewrite append_nil_r. }
  repeat split; auto.
  intros G fake w v g Hv. rewrite Hrun. unfold generate_or_keep. now rewrite Hv.
Qed.

Lemma C8_witness :
  all_digits "5551234" /\ String.length "5551234" = 7 /\
  scramble_text fixed_faker "5551234" (Some ["phone_number"]) world0 =
  (Ok "(555)867-5309", {| rng := 1; log := [] |}).
Proof.
  assert (Hd : all_digits "5551234").
  { unfold all_digits. simpl. repeat constructor. }
  split; [exact Hd|]. split; [reflexivity|].
  exact (proj2 (proj2 (proj2 (proj2
           (C8_seven_digits_are_a_phone_number "5551234" Hd eq_refl))))
           nat fixed_faker world0 "(555)867-5309" 1 eq_refl).
Defined.




(* ================================================================= *)
(** ** Bounds on what the words of a pattern hold *)

Module CountFacts.
Import Re Count.

Lemma all_ascii_complete (c : ascii) : List.In c all_ascii.
Proof.
  unfold all_ascii. apply in_map_iff. exists (nat_of_ascii c).
  split; [apply ascii_nat_embedding|]. apply in_seq.
  pose proof (nat_ascii_bounded c). lia.
Qed.

Lemma charset_all_spec items P a :
  charset_all items P = true -> in_charset items a = true -> P a = true.
Proof.
  unfold charset_all. intros H Ha. rewrite forallb_forall in H.
  specialize (H a (all_ascii_complete a)). now rewrite Ha in H.
Qed.

Lemma charset_none_spec items P a :
  charset_none items P = true -> in_charset items a = true -> P a = false.
Proof.
  unfold charset_none. intros H Ha. rewrite forallb_forall in H.
  specialize (H a (all_ascii_complete a)). rewrite Ha in H. simpl in H.
  now apply negb_true_iff.
Qed.

Lemma count_chars_append P (a b : string) :
  count_chars P (a ++ b) = count_chars P a + count_chars P b.
Proof. induction a as [|c a IH]; simpl; [reflexivity | rewrite IH; lia]. Qed.

Lemma count_chars_le P (s : string) : count_chars P s <= String.length s.
Proof. induction s as [|c s IH]; simpl; [lia | destruct (P c); lia]. Qed.

Lemma count_any (s : string) : count_chars any_char s = String.length s.
Proof. induction s as [|c s IH]; simpl; [reflexivity | now rewrite IH]. Qed.

Lemma count_zero P (s : string) :
  count_chars P s = 0 <->
  Forall (fun c => P c = false) (list_ascii_of_string s).
Proof.
  induction s as [|c s IH]; simpl.
  - split; [constructor | reflexivity].
  - rewrite Forall_cons_iff, <- IH. destruct (P c); simpl.
    + split; [lia | intros [? _]; discriminate].
    + split; [now split | now intros [_ ?]].
Qed.

Lemma count_concat_bounds P (L : string -> Prop) (mn : nat) (ws : list string) :
  Forall (fun w => mn <= count_chars P w) ws ->
  List.length ws * mn <= count_chars P (str_concat ws).
Proof.
  induction 1 as [|w ws Hw _ IH]; simpl; [lia|].
  rewrite count_chars_append. lia.
Qed.

Lemma count_concat_upper P (mx : nat) (ws : list string) :
  Forall (fun w => count_chars P w <= mx) ws ->
  count_chars P (str_concat ws) <= List.length ws * mx.
Proof.
  induction 1 as [|w ws Hw _ IH]; simpl; [lia|].
  rewrite count_chars_append. lia.
Qed.

Theorem min_count_sound P (r : regex) :
  forall w, lang r w -> min_count P r <= count_chars P w.
Proof.
  induction r as [| c | items | r1 IH1 r2 IH2 | r1 IH1 r2 IH2
                 | greedy lo hi r IH | cap r IH]; intros w H; simpl in *.
  - lia.
  - subst. simpl. destruct (P c); lia.
  - destruct H as (a & Ha & ->). simpl.
    destruct (charset_all items P) eqn:E; [|lia].
    now rewrite (charset_all_spec _ _ _ E Ha).
  - destruct H as (w1 & w2 & -> & L1 & L2). rewrite count_chars_append.
    specialize (IH1 _ L1). specialize (IH2 _ L2). lia.
  - destruct H as [H|H]; [specialize (IH1 _ H) | specialize (IH2 _ H)]; lia.
  - destruct H as (ws & -> & Hlo & _ & HF).
    assert (HF' : Forall (fun w => min_count P r <= count_chars P w) ws).
    { eapply Forall_impl; [|exact HF]. auto. }
    apply (count_concat_bounds P (lang r)) in HF'. nia.
  - now apply IH.
Qed.

Theorem max_count_sound P (r : regex) :
  forall w m, lang r w -> max_count P r = Some m -> count_chars P w <= m.
Proof.
  induction r as [| c | items | r1 IH1 r2 IH2 | r1 IH1 r2 IH2
                 | greedy lo hi r IH | cap r IH]; intros w m H Hm; simpl in *.
  - subst. injection Hm as <-. simpl. lia.
  - subst. injection Hm as <-. simpl. destruct (P c); lia.
  - destruct H as (a & Ha & ->). injection Hm as <-. simpl.
    destruct (charset_none items P) eqn:E.
    + rewrite (charset_none_spec _ _ _ E Ha). lia.
    + destruct (P a); lia.
  - destruct H as (w1 & w2 & -> & L1 & L2). rewrite count_chars_append.
    destruct (max_count P r1) as [m1|]; [|discriminate].
    destruct (max_count P r2) as [m2|]; [|discriminate].
    injection Hm as <-.
    specialize (IH1 _ _ L1 eq_refl). specialize (IH2 _ _ L2 eq_refl). lia.
  - destruct (max_count P r1) as [m1|]; [|discriminate].
    destruct (max_count P r2) as [m2|]; [|discriminate].
    injection Hm as <-.
    destruct H as [H|H];
      [specialize (IH1 _ _ H eq_refl) | specialize (IH2 _ _ H eq_refl)]; lia.
  - destruct H as (ws & -> & _ & Hhi & HF).
    destruct (max_count P r) as [mr|]; [|discriminate].
    assert (HF' : Forall (fun w => count_chars P w <= mr) ws).
    { eapply Forall_impl; [|exact HF]. intros a Ha. now apply IH. }
    apply count_concat_upper in HF'.
    destruct mr as [|mr].
    + injection Hm as <-. lia.
    + destruct hi as [h|]; [|discriminate]. injection Hm as <-.
      specialize (Hhi h eq_refl). nia.
  - now apply IH with (w := w).
Qed.

(** The length of a word lies between the two counts of any character. *)
Lemma width_bounds (r : regex) (w : string) (lo hi : nat) :
  lang r w -> min_count any_char r = lo -> max_count any_char r = Some hi ->
  lo <= String.length w <= hi.
Proof.
  intros HL <- Hhi. rewrite <- count_any. split.
  - now apply min_count_sound.
  - now apply (max_count_sound any_char r).
Qed.

Lemma none_of (P : ascii -> bool) (r : regex) (w : string) :
  lang r w -> max_count P r = Some 0 ->
  Forall (fun c => P c = false) (list_ascii_of_string w).
Proof.
  intros HL H0. apply count_zero.
  pose proof (max_count_sound P r w 0 HL H0). lia.
Qed.

End CountFacts.

(* ================================================================= *)
(** ** What the matches of each category look like *)

Module PatternFacts.
Import Re Count CountFacts.

(** X13.  Every match of the credit_card pattern is a run of 13 to 16
    digits. *)
Theorem X13_credit_card_words (w : string) :
  lang Patterns.credit_card w -> all_digits w /\ 13 <= String.length w <= 16.
Proof.
  intros HL. split.
  - assert (H0 : max_count not_decimal Patterns.credit_card = Some 0)
      by (vm_compute; reflexivity).
    pose proof (none_of _ _ _ HL H0) as HF. unfold all_digits.
    eapply Forall_impl; [|exact HF]. unfold not_decimal.
    intros c Hc. now apply negb_false_iff.
  - apply (width_bounds Patterns.credit_card w 13 16 HL);
      vm_compute; reflexivity.
Qed.

(** X14.  Every match of the phone_number pattern holds seven or ten
    digits, and besides them only white space, [-], [.] and parentheses. *)
Theorem X14_phone_number_words (w : string) :
  lang Patterns.phone_number w ->
  (count_chars is_decimal w = 7 \/ count_chars is_decimal w = 10) /\
  Forall (fun c => is_decimal c = true \/ phone_punctuation c = true)
    (list_ascii_of_string w).
Proof.
  intros HL. split.
  - assert (Hcount : forall r n,
               lang r w -> min_count is_decimal r = n ->
               max_count is_decimal r = Some n -> count_chars is_decimal w = n).
    { intros r n Hr Hmin Hmax.
      pose proof (min_count_sound is_decimal r w Hr).
      pose proof (max_count_sound is_decimal r w n Hr Hmax). lia. }
    destruct HL as [H|[H|H]].
    + right. apply (Hcount Patterns.phone_ten 10 H); vm_compute; reflexivity.
    + right. apply (Hcount Patterns.phone_paren 10 H); vm_compute; reflexivity.
    + left. apply (Hcount Patterns.phone_seven 7 H); vm_compute; reflexivity.
  - assert (H0 : max_count not_phone_char Patterns.phone_number = Some 0)
      by (vm_compute; reflexivity).
    pose proof (none_of _ _ _ HL H0) as HF.
    eapply Forall_impl; [|exact HF]. unfold not_phone_char.
    intros c Hc. apply negb_false_iff, orb_true_iff in Hc. exact Hc.
Qed.

(** X15.  Every match of the email pattern holds exactly one [@], is
    written with letters, digits and [._%+-] besides, and is at least six
    characters long. *)
Theorem X15_email_words (w : string) :
  lang Patterns.email w ->
  count_chars is_at w = 1 /\
  Forall (fun c => email_char c = true) (list_ascii_of_string w) /\
  6 <= String.length w.
Proof.
  intros HL. split; [|split].
  - pose proof (min_count_sound is_at Patterns.email w HL) as Hmin.
    assert (Hmax : max_count is_at Patterns.email = Some 1)
      by (vm_compute; reflexivity).
    pose proof (max_count_sound is_at Patterns.email w 1 HL Hmax).
    assert (E : min_count is_at Patterns.email = 1) by (vm_compute; reflexivity).
    rewrite E in Hmin. lia.
  - assert (H0 : max_count not_email_char Patterns.email = Some 0)
      by (vm_compute; reflexivity).
    pose proof (none_of _ _ _ HL H0) as HF.
    eapply Forall_impl; [|exact HF]. unfold not_email_char.
    intros c Hc. now apply negb_false_iff.
  - pose proof (ReFacts.lang_min_width Patterns.email w HL) as H.
    assert (E : min_width Patterns.email = 6) by (vm_compute; reflexivity).
    rewrite E in H. exact H.
Qed.

Lemma lang_by_run (r : regex) (w : string) :
  List.In (w, "") (matches_at r w) -> lang r w.
Proof. intros H. now destruct (ReFacts.matches_at_sound r w w "" H). Qed.

Lemma X13_witness :
  lang Patterns.credit_card "4111111111111111" /\
  all_digits "4111111111111111" /\ 13 <= String.length "4111111111111111" <= 16.
Proof.
  assert (H : lang Patterns.credit_card "4111111111111111")
    by (apply lang_by_run; vm_compute; auto).
  split; [exact H|]. exact (X13_credit_card_words "4111111111111111" H).
Defined.

Lemma X14_witness :
  lang Patterns.phone_number "(555) 123-4567" /\
  (count_chars is_decimal "(555) 123-4567" = 7 \/
   count_chars is_decimal "(555) 123-4567" = 10).
Proof.
  assert (H : lang Patterns.phone_number "(555) 123-4567")
    by (apply lang_by_run; vm_compute; auto).
  split; [exact H|]. exact (proj1 (X14_phone_number_words "(555) 123-4567" H)).
Defined.

Lemma X15_witness :
  lang Patterns.email "jane.doe@example.co.uk" /\
  count_chars is_at "jane.doe@example.co.uk" = 1.
Proof.
  assert (H : lang Patterns.email "jane.doe@example.co.uk")
    by (apply lang_by_run; vm_compute; auto).
  split; [exact H|]. exact (proj1 (X15_email_words "jane.doe@example.co.uk" H)).
Defined.

(** Every match of a category holds its telltale character. *)
Lemma telltale_in_match name r w :
  dict_get patterns name = Some r -> lang r w ->
  1 <= count_chars (telltale name) w.
Proof.
  intros Hr HL. pose proof (min_count_sound (telltale name) r w HL) as H.
  destruct (patterns_cases _ _ Hr) as [[-> ->]|[[-> ->]|[[-> ->]|[-> ->]]]];
    match type of H with
    | ?m <= _ =>
        let v := eval vm_compute in m in
        change m with v in H
    end; lia.
Qed.

Lemma absent_without_telltale name r text :
  dict_get patterns name = Some r ->
  count_chars (telltale name) text = 0 -> ~ occurs r text.
Proof.
  intros Hr H0 (pre & u & post & -> & HL).
  pose proof (telltale_in_match _ _ _ Hr HL).
  rewrite !count_chars_append in H0. lia.
Qed.

Lemma absent_in_short name r text :
  dict_get patterns name = Some r -> String.length text < 6 -> ~ occurs r text.
Proof.
  intros Hr Hlen (pre & u & post & -> & HL).
  apply ReFacts.lang_min_width in HL. apply patterns_width in Hr.
  rewrite !length_append in Hlen. lia.
Qed.

End PatternFacts.

(* ================================================================= *)
(** ** More on a pass and on the loop *)

Section PassMore.
Context {G : Type}.
Variable fake : Faker G.
Implicit Types (w : World G) (text name : string).

Lemma scramble_loop_absent_exact names :
  forall text w,
    (forall name r, List.In name names -> dict_get patterns name = Some r ->
                    ~ Re.occurs r text) ->
    scramble_loop fake names text w =
    (Ok text,
     {| rng := rng w;
        log := (log w ++ map unknown_warning (unknown_names names))%list |}).
Proof.
  induction names as [|name names IH]; intros text w Hno; simpl.
  - unfold ret. rewrite app_nil_r. now destruct w.
  - unfold bind. destruct (dict_get patterns name) as [r|] eqn:Hr.
    + destruct (known_method fake _ _ Hr) as [method Hm].
      rewrite (scramble_step_known fake _ _ _ _ _ Hr Hm).
      rewrite (ReFacts.finditer_absent r text); [|apply (Hno name); simpl; auto].
      simpl. rewrite IH; [|intros n r' Hin; apply Hno; now right].
      unfold dict_contains. now rewrite Hr.
    + rewrite (scramble_step_unknown fake _ _ _ Hr).
      rewrite IH; [|intros n r' Hin; apply Hno; now right]. simpl.
      unfold dict_contains. rewrite Hr. simpl. now rewrite <- app_assoc.
Qed.

Lemma substitute_records (method : G -> result string * G) category :
  forall segs tail w,
    exists added,
      log (snd (substitute method category segs tail w)) = (log w ++ added)%list /\
      List.length added <= List.length segs /\
      Forall (fun rec => exists e, rec = generation_error category e) added.
Proof.
  induction segs as [|[gap x] segs IH]; intros tail w; simpl.
  - exists []. rewrite app_nil_r. auto.
  - unfold generate_or_keep. destruct (method (rng w)) as [[v|e] g].
    + match goal with
      | |- context [substitute method category segs tail ?w1] =>
          destruct (IH tail w1) as (added & Hlog & Hlen & HF);
          destruct (substitute method category segs tail w1) as [out w2]
      end.
      simpl in *. exists added. auto.
    + match goal with
      | |- context [substitute method category segs tail ?w1] =>
          destruct (IH tail w1) as (added & Hlog & Hlen & HF);
          destruct (substitute method category segs tail w1) as [out w2]
      end.
      simpl in *. exists (generation_error category e :: added).
      rewrite Hlog, <- app_assoc. simpl. repeat split; [lia|].
      constructor; eauto.
Qed.

Lemma substitute_rng (method : G -> result string * G) category :
  forall segs tail w,
    rng (snd (substitute method category segs tail w)) =
    Nat.iter (List.length segs) (fun g => snd (method g)) (rng w).
Proof.
  induction segs as [|[gap x] segs IH]; intros tail w.
  - reflexivity.
  - cbn [List.length]. rewrite Nat.iter_succ_r. cbn [substitute].
    assert (E : rng (snd (generate_or_keep method category x w)) =
                snd (method (rng w))).
    { unfold generate_or_keep. now destruct (method (rng w)) as [[v|e] g]. }
    destruct (generate_or_keep method category x w) as [item w1].
    specialize (IH tail w1).
    destruct (substitute method category segs tail w1) as [out w2].
    simpl in *. now rewrite IH, E.
Qed.

Lemma fill_keep name :
  method_of fake name = None ->
  forall segs tail w,
    fill (fun mt => generate_fake_value fake name mt) segs tail w =
    (Ok (weave segs tail),
     {| rng := rng w;
        log := (log w ++ repeat (no_method_warning name) (List.length segs))%list |}).
Proof.
  intros Hm. induction segs as [|[gap x] segs IH]; intros tail w; simpl.
  - unfold ret. rewrite app_nil_r. now destruct w.
  - unfold bind.
    rewrite (generate_fake_value_unknown fake name {| group0 := x |} w Hm).
    rewrite IH. simpl. unfold ret. now rewrite <- app_assoc.
Qed.

Lemma scramble_text_absent_exact names :
  forall text w,
    (forall name r, List.In name (effective names) ->
                    dict_get patterns name = Some r -> ~ Re.occurs r text) ->
    scramble_text fake text names w =
    (Ok text,
     {| rng := rng w;
        log := (log w ++
                map unknown_warning (unknown_names (effective names)))%list |}).
Proof.
  intros text w Hno. unfold scramble_text. fold (effective names).
  now apply scramble_loop_absent_exact.
Qed.

End PassMore.

(** X1.  When no valid category of the request has a match in the text,
    [scramble_text] returns the text, leaves the provider as it was and
    logs one warning for each unknown name, in the order of the request,
    and nothing else. *)
Theorem X1_no_match_no_effect {G : Type} (fake : Faker G)
  (text : string) (names : option (list string)) (w : World G) :
  (forall name r, List.In name (effective names) ->
                  dict_get patterns name = Some r -> ~ Re.occurs r text) ->
  scramble_text fake text names w =
  (Ok text,
   {| rng := rng w;
      log := (log w ++
              map unknown_warning (unknown_names (effective names)))%list |}).
Proof. apply scramble_text_absent_exact. Qed.

Lemma X1_witness :
  (forall name r, List.In name (effective (Some ["ssn"; "email"; "zip"])) ->
                  dict_get patterns name = Some r -> ~ Re.occurs r "no address") /\
  scramble_text fixed_faker "no address" (Some ["ssn"; "email"; "zip"]) world0 =
  (Ok "no address",
   {| rng := 0; log := [unknown_warning "ssn"; unknown_warning "zip"] |}).
Proof.
  assert (H : forall name r,
             List.In name (effective (Some ["ssn"; "email"; "zip"])) ->
             dict_get patterns name = Some r -> ~ Re.occurs r "no address").
  { intros name r [<-|[<-|[<-|[]]]] Hr; try discriminate Hr.
    injection Hr as <-. apply ReFacts.search_none_absent. vm_compute. reflexivity. }
  split; [exact H|].
  exact (X1_no_match_no_effect fixed_faker "no address"
           (Some ["ssn"; "email"; "zip"]) world0 H).
Defined.

(** X2.  A text of fewer than six characters is too short for a match of
    any category: every request returns it as it is, without a call of the
    provider. *)
Theorem X2_short_text_is_returned {G : Type} (fake : Faker G)
  (text : string) (names : option (list string)) (w : World G) :
  String.length text < 6 ->
  fst (scramble_text fake text names w) = Ok text /\
  rng (snd (scramble_text fake text names w)) = rng w.
Proof.
  intros Hlen.
  rewrite (scramble_text_absent_exact fake names text w); [now split|].
  intros name r _ Hr. now apply (PatternFacts.absent_in_short name).
Qed.

Lemma X2_witness :
  String.length "12345" < 6 /\
  fst (scramble_text fixed_faker "12345" None world0) = Ok "12345" /\
  rng (snd (scramble_text fixed_faker "12345" None world0)) = rng world0.
Proof.
  assert (H : String.length "12345" < 6) by (simpl; lia).
  split; [exact H|].
  exact (X2_short_text_is_returned fixed_faker "12345" None world0 H).
Defined.

(** X3.  Every match of a category holds a telltale character: an [@] for
    email, a digit for phone_number, credit_card and ip_address.  A text
    without the telltales of the valid categories requested is returned as
    it is, without a call of the provider. *)
Theorem X3_text_without_telltales_is_returned {G : Type} (fake : Faker G)
  (text : string) (names : option (list string)) (w : World G) :
  (forall name, List.In name (effective names) ->
                dict_contains patterns name = true ->
                Count.count_chars (Count.telltale name) text = 0) ->
  fst (scramble_text fake text names w) = Ok text /\
  rng (snd (scramble_text fake text names w)) = rng w.
Proof.
  intros Hno.
  rewrite (scramble_text_absent_exact fake names text w); [now split|].
  intros name r Hin Hr.
  apply (PatternFacts.absent_without_telltale name); [assumption|].
  apply Hno; [assumption|]. unfold dict_contains. now rewrite Hr.
Qed.

Lemma X3_witness :
  (forall name, List.In name (effective None) ->
                dict_contains patterns name = true ->
                Count.count_chars (Count.telltale name) "Dear Jane (see above)." = 0) /\
  fst (scramble_text fixed_faker "Dear Jane (see above)." None world0)
  = Ok "Dear Jane (see above)." /\
  rng (snd (scramble_text fixed_faker "Dear Jane (see above)." None world0))
  = rng world0.
Proof.
  assert (H : forall name, List.In name (effective None) ->
                dict_contains patterns name = true ->
                Count.count_chars (Count.telltale name) "Dear Jane (see above)." = 0).
  { intros name [<-|[<-|[<-|[<-|[]]]]] _; reflexivity. }
  split; [exact H|].
  exact (X3_text_without_telltales_is_returned fixed_faker
           "Dear Jane (see above)." None world0 H).
Defined.

(** X4.  [replace_pattern] called with a pattern of the table and a name
    that has no provider method returns the text as it is, leaves the
    provider as it was and logs one warning for each match of the
    pattern. *)
Theorem X4_pass_without_method_keeps_text {G : Type} (fake : Faker G)
  (text : string) (key : string) (r : Re.regex) (name : string) (w : World G) :
  dict_get patterns key = Some r ->
  method_of fake name = None ->
  replace_pattern fake text r name w =
  (Ok text,
   {| rng := rng w;
      log := (log w ++
              repeat (no_method_warning name)
                (List.length (fst (Re.finditer r text))))%list |}).
Proof.
  intros _ Hm. unfold replace_pattern, try_except. rewrite re_sub_fill.
  rewrite (fill_keep fake name Hm). now rewrite ReFacts.finditer_weave.
Qed.

Lemma X4_witness :
  dict_get patterns "email" = Some Patterns.email /\
  method_of fixed_faker "ssn" = None /\
  replace_pattern fixed_faker "a@b.cd and c@d.ef" Patterns.email "ssn" world0 =
  (Ok "a@b.cd and c@d.ef",
   {| rng := 0; log := [no_method_warning "ssn"; no_method_warning "ssn"] |}).
Proof.
  split; [reflexivity|]. split; [reflexivity|].
  exact (X4_pass_without_method_keeps_text fixed_faker "a@b.cd and c@d.ef"
           "email" Patterns.email "ssn" world0 eq_refl eq_refl).
Defined.

(** X5.  In a pass of a valid category the provider's method is called
    once for each match of the scan, one call after the other, whether the
    calls succeed or fail; and at most one record is logged for each. *)
Theorem X5_one_call_for_each_match {G : Type} (fake : Faker G)
  (text name : string) (r : Re.regex) (method : G -> result string * G)
  (w : World G) :
  dict_get patterns name = Some r ->
  method_of fake name = Some method ->
  rng (snd (replace_pattern fake text r name w)) =
  Nat.iter (List.length (fst (Re.finditer r text)))
    (fun g => snd (method g)) (rng w) /\
  List.length (log (snd (replace_pattern fake text r name w))) <=
  List.length (log w) + List.length (fst (Re.finditer r text)).
Proof.
  intros Hr Hm.
  rewrite (replace_pattern_substitute fake text r name method w Hm). simpl.
  split; [apply substitute_rng|].
  destruct (substitute_records method name (fst (Re.finditer r text))
              (snd (Re.finditer r text)) w) as (added & -> & Hlen & _).
  rewrite length_app. lia.
Qed.

Lemma X5_witness :
  dict_get patterns "email" = Some Patterns.email /\
  method_of fixed_faker "email" = Some (email fixed_faker) /\
  rng (snd (replace_pattern fixed_faker "a@b.cd and c@d.ef" Patterns.email
              "email" world0)) = 2.
Proof.
  split; [reflexivity|]. split; [reflexivity|].
  exact (proj1 (X5_one_call_for_each_match fixed_faker "a@b.cd and c@d.ef"
                  "email" Patterns.email (email fixed_faker) world0
                  eq_refl eq_refl)).
Defined.

(** X6.  With a provider whose methods always raise, [scramble_text]
    returns the text as it is, whatever the request. *)
Theorem X6_failing_provider_returns_text {G : Type} (fake : Faker G)
  (text : string) (names : option (list string)) (w : World G) :
  (forall name method, method_of fake name = Some method ->
                       forall g, exists e g', method g = (Raise e, g')) ->
  fst (scramble_text fake text names w) = Ok text.
Proof.
  intros Hfail. unfold scramble_text. fold (effective names).
  generalize (effective names) as l. intros l. revert w.
  induction l as [|name l IH]; intros w; simpl; [reflexivity|].
  unfold bind. destruct (dict_get patterns name) as [r|] eqn:Hr.
  - destruct (known_method fake _ _ Hr) as [method Hm].
    rewrite (scramble_step_known fake _ _ _ _ _ Hr Hm).
    rewrite (substitute_all_fail method name (Hfail name method Hm)).
    rewrite ReFacts.finditer_weave. apply IH.
  - rewrite (scramble_step_unknown fake _ _ _ Hr). apply IH.
Qed.

Lemma X6_witness :
  (forall name method, method_of failing_faker name = Some method ->
                       forall g, exists e g', method g = (Raise e, g')) /\
  fst (scramble_text failing_faker "555-123-4567, jane@example.com" None world0)
  = Ok "555-123-4567, jane@example.com".
Proof.
  assert (H : forall name method, method_of failing_faker name = Some method ->
                forall g, exists e g', method g = (Raise e, g')).
  { intros name method Hm g. unfold method_of in Hm.
    exists (Exception "no provider"), (S g).
    destruct (name =? "phone_number"); [now injection Hm as <-|].
    destruct (name =? "credit_card"); [now injection Hm as <-|].
    destruct (name =? "email"); [now injection Hm as <-|].
    destruct (name =? "ip_address"); [now injection Hm as <-|]. discriminate. }
  split; [exact H|].
  exact (X6_failing_provider_returns_text failing_faker
           "555-123-4567, jane@example.com" None world0 H).
Defined.

(* ================================================================= *)
(** ** What a call logs *)

Section Records.
Context {G : Type}.
Variable fake : Faker G.

Lemma request_record_tail name names rec :
  request_record names rec -> request_record (name :: names) rec.
Proof.
  intros [(n & Hin & Hk & ->)|(n & e & Hin & Hk & ->)]; [left | right].
  - exists n. simpl. auto.
  - exists n, e. simpl. auto.
Qed.

Lemma scramble_loop_records names :
  forall text (w : World G),
    exists added,
      log (snd (scramble_loop fake names text w)) = (log w ++ added)%list /\
      Forall (request_record names) added.
Proof.
  induction names as [|name names IH]; intros text w; simpl.
  - exists []. now rewrite app_nil_r.
  - unfold bind. destruct (dict_get patterns name) as [r|] eqn:Hr.
    + destruct (known_method fake _ _ Hr) as [method Hm].
      rewrite (scramble_step_known fake _ _ _ _ _ Hr Hm).
      destruct (substitute_records method name (fst (Re.finditer r text))
                  (snd (Re.finditer r text)) w) as (a1 & Hlog1 & _ & HF1).
      match goal with
      | |- context [scramble_loop fake names ?t ?w1] =>
          destruct (IH t w1) as (a2 & Hlog2 & HF2)
      end.
      exists (a1 ++ a2)%list. rewrite Hlog2, Hlog1, app_assoc.
      split; [reflexivity|]. apply Forall_app. split.
      * eapply Forall_impl; [|exact HF1]. intros rec [e ->]. right.
        exists name, e. simpl. unfold dict_contains. rewrite Hr. auto.
      * eapply Forall_impl; [|exact HF2]. apply request_record_tail.
    + rewrite (scramble_step_unknown fake _ _ _ Hr).
      match goal with
      | |- context [scramble_loop fake names ?t ?w1] =>
          destruct (IH t w1) as (a2 & Hlog2 & HF2)
      end.
      simpl in Hlog2. exists (unknown_warning name :: a2).
      rewrite Hlog2, <- app_assoc. split; [reflexivity|]. constructor.
      * left. exists name. simpl. unfold dict_contains. rewrite Hr. auto.
      * eapply Forall_impl; [|exact HF2]. apply request_record_tail.
Qed.

End Records.

(** X7.  A call of [scramble_text] keeps what was logged and adds nothing
    but a warning for an unknown name of the request and an error for a
    generation that failed in a valid category of the request: the warning
    for a name without provider method and the error of a bad regular
    expression are never logged by it. *)
Theorem X7_records_of_a_call {G : Type} (fake : Faker G)
  (text : string) (names : option (list string)) (w : World G) :
  exists added,
    log (snd (scramble_text fake text names w)) = (log w ++ added)%list /\
    Forall (request_record (effective names)) added.
Proof.
  unfold scramble_text. fold (effective names). apply scramble_loop_records.
Qed.

(* ================================================================= *)
(** ** The command line *)

Module CliFacts.
Import Cli.

Lemma is_valid_known name : is_valid name = dict_contains patterns name.
Proof.
  unfold is_valid, valid_patterns, dict_contains, patterns. cbn [existsb dict_get].
  rewrite !(String.eqb_sym name).
  destruct ("phone_number" =? name), ("credit_card" =? name),
    ("email" =? name), ("ip_address" =? name); reflexivity.
Qed.

Lemma validate_invalid names bad p :
  find (fun name => negb (is_valid name)) names = Some bad ->
  validate names p =
  (SystemExit 1,
   {| records := (records p ++ [invalid_pattern_error bad])%list;
      stdout := stdout p; files := files p |}).
Proof.
  induction names as [|name names IH]; simpl; [discriminate|].
  destruct (negb (is_valid name)); [|exact IH].
  intros [= ->]. reflexivity.
Qed.

Lemma validate_valid names p :
  find (fun name => negb (is_valid name)) names = None ->
  validate names p = (Value tt, p).
Proof.
  induction names as [|name names IH]; simpl; [reflexivity|].
  destruct (negb (is_valid name)); [discriminate | exact IH].
Qed.

Lemma find_invalid_none names :
  find (fun name => negb (is_valid name)) names = None <->
  forallb is_valid names = true.
Proof.
  induction names as [|name names IH]; simpl; [tauto|].
  destruct (is_valid name); simpl; [exact IH|]. split; discriminate.
Qed.

(** The validation of [main], as a whole. *)
Lemma validation_cases (args : Namespace) p :
  (exists names bad,
      args_patterns args = Some names /\
      find (fun name => negb (is_valid name)) names = Some bad /\
      (match args_patterns args with
       | Some (pattern :: rest) => validate (pattern :: rest)
       | _ => unit_cmd tt
       end) p =
      (SystemExit 1,
       {| records := (records p ++ [invalid_pattern_error bad])%list;
          stdout := stdout p; files := files p |})) \/
  (valid_request args /\
   (match args_patterns args with
    | Some (pattern :: rest) => validate (pattern :: rest)
    | _ => unit_cmd tt
    end) p = (Value tt, p)).
Proof.
  unfold valid_request.
  destruct (args_patterns args) as [[|name names]|] eqn:E.
  - right. split; [|reflexivity]. now intros ? [= <-].
  - destruct (find (fun n => negb (is_valid n)) (name :: names)) as [bad|] eqn:F.
    + left. exists (name :: names), bad. split; [reflexivity|]. split; [exact F|].
      now apply validate_invalid.
    + right. split; [|now apply validate_valid].
      intros ? [= <-]. now apply find_invalid_none.
  - right. split; [|reflexivity]. discriminate.
Qed.

End CliFacts.

(** X8.  A category on the command line that is not one of the four makes
    [main] log one error, for the first such name, and exit with status 1:
    no input is read, no provider made and nothing printed or written. *)
Theorem X8_invalid_category_exits {G : Type} (env : Cli.Env G)
  (args : Cli.Namespace) (names : list string) (bad : string) :
  Cli.args_patterns args = Some names ->
  find (fun name => negb (Cli.is_valid name)) names = Some bad ->
  Cli.main env args Cli.start =
  (Cli.SystemExit 1,
   {| Cli.records := [Cli.invalid_pattern_error bad];
      Cli.stdout := ""; Cli.files := [] |}).
Proof.
  intros Hargs Hbad. unfold Cli.main, Cli.then_cmd. rewrite Hargs.
  destruct names as [|name names]; [discriminate|].
  now rewrite (CliFacts.validate_invalid _ _ _ Hbad).
Qed.

Lemma X8_witness :
  Cli.args_patterns
    (Cli.test_request None (Some ["email"; "ssn"; "zip"]) (Some "in.txt") None)
  = Some ["email"; "ssn"; "zip"] /\
  find (fun name => negb (Cli.is_valid name)) ["email"; "ssn"; "zip"] = Some "ssn" /\
  Cli.main Cli.test_env
    (Cli.test_request None (Some ["email"; "ssn"; "zip"]) (Some "in.txt") None)
    Cli.start =
  (Cli.SystemExit 1,
   {| Cli.records := [Cli.invalid_pattern_error "ssn"];
      Cli.stdout := ""; Cli.files := [] |}).
Proof.
  split; [reflexivity|]. split; [reflexivity|].
  exact (X8_invalid_category_exits Cli.test_env
           (Cli.test_request None (Some ["email"; "ssn"; "zip"]) (Some "in.txt") None)
           ["email"; "ssn"; "zip"] "ssn" eq_refl eq_refl).
Defined.

Section MainSteps.
Context {G : Type}.
Variable env : Cli.Env G.
Variable args : Cli.Namespace.

Lemma validation_passes p :
  Cli.valid_request args ->
  (match Cli.args_patterns args with
   | Some (pattern :: rest) => Cli.validate (pattern :: rest)
   | _ => Cli.unit_cmd tt
   end) p = (Cli.Value tt, p).
Proof.
  intros Hv.
  destruct (CliFacts.validation_cases args p)
    as [(names & bad & Hn & Hbad & _)|[_ H]]; [|exact H].
  apply Hv, CliFacts.find_invalid_none in Hn. congruence.
Qed.

Lemma read_input_done text p :
  Cli.input_of env args = Cli.Done text ->
  Cli.read_input env args p = (Cli.Value text, p).
Proof.
  unfold Cli.input_of, Cli.read_input, Cli.try_cmd, Cli.attempt_cmd.
  destruct (Cli.truthy (Cli.args_file args)) as [path|].
  - now intros ->.
  - destruct (Cli.truthy (Cli.args_input_text args)) as [t|].
    + now intros [= ->].
    + now intros ->.
Qed.

(** A valid request has no unknown name: the scrambler logs only errors. *)
Lemma valid_request_known name :
  Cli.valid_request args ->
  List.In name (effective (Cli.args_patterns args)) ->
  dict_contains patterns name = true.
Proof.
  intros Hv Hin. destruct (Cli.args_patterns args) as [names|] eqn:E.
  - specialize (Hv names E). rewrite forallb_forall in Hv.
    rewrite <- CliFacts.is_valid_known. now apply Hv.
  - simpl in Hin. destruct Hin as [<-|[<-|[<-|[<-|[]]]]]; reflexivity.
Qed.

Lemma valid_request_records (fake : Faker G) text g :
  Cli.valid_request args ->
  Forall (fun r => ~ Cli.is_warning r)
    (map Cli.Logged
       (log (snd (scramble_text fake text (Cli.args_patterns args)
                    {| rng := g; log := [] |})))).
Proof.
  intros Hv. unfold scramble_text. fold (effective (Cli.args_patterns args)).
  destruct (scramble_loop_records fake (effective (Cli.args_patterns args))
              text {| rng := g; log := [] |}) as (added & -> & HF).
  simpl. apply Forall_map. eapply Forall_impl; [|exact HF].
  intros rec [(name & Hin & Hk & _)|(name & e & _ & _ & ->)].
  - rewrite (valid_request_known name Hv Hin) in Hk. discriminate.
  - intros [msg [=]].
Qed.

End MainSteps.




(** X10.  With a valid request, an input that can be read and a provider
    that can be made, [main] delivers what [scramble_text] returns for that
    input: to the file, as it is, with an INFO record and nothing printed,
    when an output path is given and the file can be written; to the
    standard output, with a new line after it and nothing written, when
    none is given and printing succeeds.  It then returns. *)
Theorem X10_main_delivers_the_scrambled_text {G : Type} (env : Cli.Env G)
  (args : Cli.Namespace) (text : string) (fake : Faker G) (g : G) :
  Cli.valid_request args ->
  Cli.input_of env args = Cli.Done text ->
  Cli.new_provider env (Cli.args_locale args) = Cli.Done (fake, g) ->
  exists out w',
    scramble_text fake text (Cli.args_patterns args) {| rng := g; log := [] |}
    = (Ok out, w') /\
    (forall path,
        Cli.truthy (Cli.args_output args) = Some path ->
        Cli.write_file env path out = None ->
        Cli.main env args Cli.start =
        (Cli.Value tt,
         {| Cli.records :=
              (map Cli.Logged (log w') ++
               [Cli.LoggedInfo ("Scrambled data written to: " ++ path)])%list;
            Cli.stdout := "";
            Cli.files := [(path, out)] |})) /\
    (Cli.truthy (Cli.args_output args) = None ->
     Cli.print_failure env out = None ->
     Cli.main env args Cli.start =
     (Cli.Value tt,
      {| Cli.records := map Cli.Logged (log w');
         Cli.stdout := out ++ Cli.newline;
         Cli.files := [] |})).
Proof.
  intros Hv Hin Hprov.
  destruct (scramble_loop_returns fake (effective (Cli.args_patterns args)) text
              {| rng := g; log := [] |}) as (out & w' & Hrun).
  assert (Hrun' : scramble_text fake text (Cli.args_patterns args)
                    {| rng := g; log := [] |} = (Ok out, w')) by exact Hrun.
  exists out, w'. split; [exact Hrun'|].
  split.
  - intros path Hpath Hwrite. unfold Cli.main, Cli.then_cmd at 1.
    rewrite (validation_passes args Cli.start Hv).
    unfold Cli.try_cmd, Cli.then_cmd. rewrite (read_input_done env args text _ Hin).
    unfold Cli.scramble. rewrite Hprov, Hrun'.
    unfold Cli.write_output. rewrite Hpath.
    unfold Cli.try_cmd, Cli.then_cmd, Cli.write. rewrite Hwrite. reflexivity.
  - intros Hnone Hprint. unfold Cli.main, Cli.then_cmd at 1.
    rewrite (validation_passes args Cli.start Hv).
    unfold Cli.try_cmd, Cli.then_cmd. rewrite (read_input_done env args text _ Hin).
    unfold Cli.scramble. rewrite Hprov, Hrun'.
    unfold Cli.write_output. rewrite Hnone.
    unfold Cli.print. rewrite Hprint. reflexivity.
Qed.

Lemma X10_witness :
  Cli.valid_request (Cli.test_request (Some "ignored") (Some ["email"])
                       (Some "in.txt") (Some "out.txt")) /\
  Cli.main Cli.test_env
    (Cli.test_request (Some "ignored") (Some ["email"]) (Some "in.txt")
       (Some "out.txt")) Cli.start =
  (Cli.Value tt,
   {| Cli.records := [Cli.LoggedInfo "Scrambled data written to: out.txt"];
      Cli.stdout := "";
      Cli.files := [("out.txt", "mail user5551234@example.org")] |}).
Proof.
  assert (Hv : Cli.valid_request
                 (Cli.test_request (Some "ignored") (Some ["email"])
                    (Some "in.txt") (Some "out.txt"))).
  { intros names [= <-]. reflexivity. }
  split; [exact Hv|].
  destruct (X10_main_delivers_the_scrambled_text Cli.test_env
              (Cli.test_request (Some "ignored") (Some ["email"])
                 (Some "in.txt") (Some "out.txt"))
              "mail jane@example.com" fixed_faker 0 Hv eq_refl eq_refl)
    as (out & w' & Hrun & Hfile & _).
  vm_compute in Hrun. injection Hrun as <- <-.
  exact (Hfile "out.txt" eq_refl eq_refl).
Defined.

(** X11.  The text on the command line counts only when no file is given,
    and an empty text counts as none: then [main] reads the standard
    input. *)
Theorem X11_input_precedence {G : Type} (env : Cli.Env G)
  (args : Cli.Namespace) (p : Cli.Process) :
  (Cli.truthy (Cli.args_file args) <> None ->
   forall text,
     Cli.main env (Cli.with_input_text args text) p = Cli.main env args p) /\
  (Cli.truthy (Cli.args_file args) = None ->
   Cli.main env (Cli.with_input_text args (Some "")) p =
   Cli.main env (Cli.with_input_text args None) p /\
   Cli.input_of env (Cli.with_input_text args (Some "")) = Cli.stdin_read env).
Proof.
  split.
  - intros Hfile text. unfold Cli.main, Cli.read_input, Cli.write_output. simpl.
    destruct (Cli.truthy (Cli.args_file args)); [reflexivity | congruence].
  - intros Hfile. split.
    + unfold Cli.main, Cli.read_input, Cli.write_output. simpl.
      now rewrite Hfile.
    + unfold Cli.input_of. simpl. now rewrite Hfile.
Qed.

Lemma X11_witness :
  Cli.truthy (Cli.args_file (Cli.test_request None None None None)) = None /\
  Cli.main Cli.test_env
    (Cli.with_input_text (Cli.test_request None None None None) (Some ""))
    Cli.start =
  (Cli.Value tt,
   {| Cli.records := [];
      Cli.stdout := "call (555)867-5309" ++ Cli.newline;
      Cli.files := [] |}).
Proof.
  split; [reflexivity|].
  rewrite (proj1 (proj2 (X11_input_precedence Cli.test_env
                           (Cli.test_request None None None None) Cli.start)
                    eq_refl)).
  vm_compute. reflexivity.
Defined.

(** X12.  [main] never logs a warning: it refuses the names the scrambler
    would pass over with one before anything is scrambled. *)
Theorem X12_main_never_warns {G : Type} (env : Cli.Env G)
  (args : Cli.Namespace) :
  Forall (fun r => ~ Cli.is_warning r)
    (Cli.records (snd (Cli.main env args Cli.start))).
Proof.
  unfold Cli.main. unfold Cli.then_cmd at 1.
  destruct (CliFacts.validation_cases args Cli.start)
    as [(names & bad & _ & _ & ->)|[Hv ->]].
  - simpl. constructor; [|constructor]. intros [msg [=]].
  - unfold Cli.try_cmd, Cli.then_cmd, Cli.read_input, Cli.write_output,
      Cli.scramble, Cli.print, Cli.write, Cli.attempt_cmd, Cli.logging_error,
      Cli.logging_info, Cli.log_record_cmd, Cli.sys_exit, Cli.unit_cmd.
    repeat (cbn -[scramble_text String.append];
            match goal with
            | |- context [match ?x with _ => _ end] =>
                lazymatch x with
                | context [match _ with _ => _ end] => fail
                | _ => destruct x eqn:?
                end
            end);
      cbn -[scramble_text String.append];
      repeat match goal with
        | |- Forall _ (_ ++ _)%list => apply Forall_app; split
        | |- Forall _ (_ :: _) => constructor
        | |- Forall _ [] => constructor
        | |- ~ Cli.is_warning _ => intros [? [=]]
        | H : scramble_text ?fake ?text _ {| rng := ?g; log := [] |} = (_, ?w)
          |- Forall _ (map Cli.Logged (log ?w)) =>
            let H' := fresh in
            pose proof (valid_request_records args fake text g Hv) as H';
            rewrite H in H'; exact H'
        end.
Qed.


(** X16.  A request is its first names applied and then, to the text they
    give, its last names: [scramble_text] over a list put together from two
    is [scramble_text] over the first and then over the second. *)
Theorem X16_requests_compose {G : Type} (fake : Faker G)
  (text : string) (names1 names2 : list string) (w : World G) :
  scramble_text fake text (Some (names1 ++ names2)%list) w =
  (t <- scramble_text fake text (Some names1) ;;
   scramble_text fake t (Some names2)) w.
Proof.
  unfold scramble_text. revert text w.
  induction names1 as [|name names1 IH]; intros text w; simpl.
  - reflexivity.
  - unfold bind in *.
    destruct (scramble_step fake name text w) as [[t|e] w1]; [apply IH | reflexivity].
Qed.

(** X17.  With a valid request, an input that cannot be read makes [main]
    log one error and exit with status 1, nothing printed or written: for a
    file that is not found the error names the path, for another I/O error
    of the file it gives the error's text, for any other exception of the
    file, and for any exception of the standard input, it is the
    unexpected error. *)
Theorem X17_unreadable_input_exits {G : Type} (env : Cli.Env G)
  (args : Cli.Namespace) :
  Cli.valid_request args ->
  (forall path msg,
      Cli.truthy (Cli.args_file args) = Some path ->
      Cli.read_file env path = Cli.Failed (Cli.FileNotFoundError msg) ->
      Cli.main env args Cli.start =
      (Cli.SystemExit 1,
       {| Cli.records := [Cli.error_record ("File not found: " ++ path)];
          Cli.stdout := ""; Cli.files := [] |})) /\
  (forall path msg,
      Cli.truthy (Cli.args_file args) = Some path ->
      Cli.read_file env path = Cli.Failed (Cli.IOError msg) ->
      Cli.main env args Cli.start =
      (Cli.SystemExit 1,
       {| Cli.records := [Cli.error_record ("Error reading file: " ++ msg)];
          Cli.stdout := ""; Cli.files := [] |})) /\
  (forall path msg,
      Cli.truthy (Cli.args_file args) = Some path ->
      Cli.read_file env path = Cli.Failed (Cli.OtherError msg) ->
      Cli.main env args Cli.start =
      (Cli.SystemExit 1,
       {| Cli.records :=
            [Cli.error_record ("An unexpected error occurred: " ++ msg)];
          Cli.stdout := ""; Cli.files := [] |})) /\
  (forall e,
      Cli.truthy (Cli.args_file args) = None ->
      Cli.truthy (Cli.args_input_text args) = None ->
      Cli.stdin_read env = Cli.Failed e ->
      Cli.main env args Cli.start =
      (Cli.SystemExit 1,
       {| Cli.records :=
            [Cli.error_record ("An unexpected error occurred: " ++ Cli.io_str e)];
          Cli.stdout := ""; Cli.files := [] |})).
Proof.
  intros Hv.
  repeat split; intros;
    unfold Cli.main; unfold Cli.then_cmd at 1;
    rewrite (validation_passes args Cli.start Hv);
    unfold Cli.try_cmd, Cli.then_cmd, Cli.read_input, Cli.try_cmd,
      Cli.attempt_cmd;
    repeat match goal with H : _ = _ |- _ => rewrite H; clear H end;
    reflexivity.
Qed.

Lemma X17_witness :
  Cli.valid_request (Cli.test_request None None (Some "nope.txt") None) /\
  Cli.main Cli.test_env (Cli.test_request None None (Some "nope.txt") None)
    Cli.start =
  (Cli.SystemExit 1,
   {| Cli.records := [Cli.error_record "File not found: nope.txt"];
      Cli.stdout := ""; Cli.files := [] |}).
Proof.
  assert (Hv : Cli.valid_request
                 (Cli.test_request None None (Some "nope.txt") None)).
  { intros names [=]. }
  split; [exact Hv|].
  exact (proj1 (X17_unreadable_input_exits Cli.test_env
                  (Cli.test_request None None (Some "nope.txt") None) Hv)
           "nope.txt" "No such file or directory" eq_refl eq_refl).
Defined.


